(** * ImprovedBreakoutStrategy: indicator table and entry/exit signals

    A shallow embedding of [user_data/strategies/breakout_strategy.py].

    - A pandas [DataFrame] is a row count together with a finite map from
      column names to columns; the strategy mutates its argument in place and
      returns it, which is modelled by passing the table through.
    - Numeric cells are IEEE 754 binary64 numbers, taken from the Standard
      Library's executable specification [spec_float] (precision 53,
      exponent bound 1024): comparisons against NaN are false, arithmetic
      rounds to nearest even.
    - Reading a column that is absent raises [KeyError], a TA-Lib routine
      called on a table without its price columns raises a plain
      [Exception], and a scalar written to a new column of an empty table
      raises [ValueError]; everything that can raise lives in the [result]
      monad.
    - TA-Lib and the pandas rolling windows are external numeric routines;
      the strategy is parametric in them. *)

From Stdlib Require Import ZArith Lia Floats.SpecFloat.
From stdpp Require Import base option list strings pretty gmap fin_maps.

Set Default Proof Using "Type".

(** ** binary64 arithmetic *)

Module F64.

Definition prec : Z := 53.
Definition emax : Z := 1024.

Definition nan : spec_float := S754_nan.

(** A Python [int] used where numpy expects a float64. *)
Definition of_Z (n : Z) : spec_float := binary_normalize prec emax n 0 false.

Definition add : spec_float → spec_float → spec_float := SFadd prec emax.
Definition sub : spec_float → spec_float → spec_float := SFsub prec emax.
Definition mul : spec_float → spec_float → spec_float := SFmul prec emax.
Definition div : spec_float → spec_float → spec_float := SFdiv prec emax.

(** A decimal literal [n/d] of the source text, correctly rounded. *)
Definition of_ratio (n d : Z) : spec_float := div (of_Z n) (of_Z d).

Definition ltb (x y : spec_float) : bool := SFltb x y.
Definition leb (x y : spec_float) : bool := SFleb x y.
Definition gtb (x y : spec_float) : bool := SFltb y x.
Definition geb (x y : spec_float) : bool := SFleb y x.

(** The integer a float64 is equal to, when it is equal to one. *)
Definition to_Z (x : spec_float) : option Z :=
  match x with
  | S754_zero _ => Some 0%Z
  | S754_finite s m e =>
      if (0 <=? e)%Z then Some (cond_Zopp s (Zpos m * 2 ^ e))
      else if (Zpos m mod 2 ^ (- e) =? 0)%Z
           then Some (cond_Zopp s (Zpos m / 2 ^ (- e)))
           else None
  | _ => None
  end.

End F64.

(** ** Errors *)

Inductive error :=
  (** [df[name]] on a table without that column *)
  | KeyError (column : string)
  (** a boolean mask that does not match the index *)
  | IndexingError
  (** "cannot set a frame with no defined index and a scalar" *)
  | ValueError
  (** [talib.abstract]: "input_arrays parameter missing required data
      keys", a plain [Exception] that lists the missing price columns *)
  | MissingInputs (keys : list string).

Inductive result (A : Type) :=
  | Ok (a : A)
  | Raise (e : error).
Arguments Ok {A} a.
Arguments Raise {A} e.

#[global] Instance result_ret : MRet result := λ A a, Ok a.
#[global] Instance result_bind : MBind result := λ A B f r,
  match r with
  | Ok a => f a
  | Raise e => Raise e
  end.

(** ** Series and tables *)

Inductive column :=
  | FloatCol (xs : list spec_float)
  | IntCol (xs : list Z).

Definition column_length (c : column) : nat :=
  match c with
  | FloatCol xs => length xs
  | IntCol xs => length xs
  end.

Record DataFrame := mkDataFrame {
  shape0 : nat;
  columns : gmap string column;
}.

(** Every column has one cell per row. *)
Definition aligned (df : DataFrame) : Prop :=
  map_Forall (λ _ c, column_length c = shape0 df) (columns df).

(** [df[name]], read as float64 values: an int64 cell is read as the float64
    it converts to, which is the same number below 2^53. *)
Definition getitem (df : DataFrame) (name : string) : result (list spec_float) :=
  match columns df !! name with
  | Some (FloatCol xs) => Ok xs
  | Some (IntCol xs) => Ok (F64.of_Z <$> xs)
  | None => Raise (KeyError name)
  end.

(** [df[name] = col] *)
Definition setitem (df : DataFrame) (name : string) (c : column) : DataFrame :=
  mkDataFrame (shape0 df) (<[name := c]> (columns df)).

(** [df.loc[:, name] = v] with an integer [v].  A column that exists is
    written in place and keeps its dtype; a column that does not exist is
    created as an int64 column, which pandas refuses on a table without
    rows. *)
Definition loc_set_all (df : DataFrame) (name : string) (v : Z) : result DataFrame :=
  match columns df !! name with
  | Some (IntCol xs) => Ok (setitem df name (IntCol ((λ _, v) <$> xs)))
  | Some (FloatCol xs) => Ok (setitem df name (FloatCol ((λ _, F64.of_Z v) <$> xs)))
  | None =>
      if bool_decide (shape0 df = 0) then Raise ValueError
      else Ok (setitem df name (IntCol (replicate (shape0 df) v)))
  end.

Definition where_ {A} (mask : list bool) (v : A) (xs : list A) : list A :=
  zip_with (λ (b : bool) x, if b then v else x) mask xs.

(** [df.loc[mask, name] = v] with an integer [v].  A mask whose length
    differs from the row count is refused; a column that does not exist yet
    is created with NaN outside the mask. *)
Definition loc_set (df : DataFrame) (mask : list bool) (name : string) (v : Z)
  : result DataFrame :=
  if bool_decide (length mask = shape0 df) then
    match columns df !! name with
    | Some (IntCol xs) => Ok (setitem df name (IntCol (where_ mask v xs)))
    | Some (FloatCol xs) =>
        Ok (setitem df name (FloatCol (where_ mask (F64.of_Z v) xs)))
    | None =>
        Ok (setitem df name
              (FloatCol ((λ b : bool, if b then F64.of_Z v else F64.nan) <$> mask)))
    end
  else Raise IndexingError.

(** Element-wise operators of aligned Series. *)
Module Series.
Definition add : list spec_float → list spec_float → list spec_float := zip_with F64.add.
Definition sub : list spec_float → list spec_float → list spec_float := zip_with F64.sub.
Definition mul_scalar (xs : list spec_float) (k : spec_float) : list spec_float :=
  (λ x, F64.mul x k) <$> xs.
Definition gt : list spec_float → list spec_float → list bool := zip_with F64.gtb.
Definition lt : list spec_float → list spec_float → list bool := zip_with F64.ltb.
Definition ge : list spec_float → list spec_float → list bool := zip_with F64.geb.
Definition ge_scalar (xs : list spec_float) (k : spec_float) : list bool :=
  (λ x, F64.geb x k) <$> xs.
Definition le_scalar (xs : list spec_float) (k : spec_float) : list bool :=
  (λ x, F64.leb x k) <$> xs.
Definition lt_scalar (xs : list spec_float) (k : spec_float) : list bool :=
  (λ x, F64.ltb x k) <$> xs.
Definition and : list bool → list bool → list bool := zip_with andb.
Definition or : list bool → list bool → list bool := zip_with orb.
End Series.

Infix "&&&" := Series.and (at level 40, left associativity).
Infix "|||" := Series.or (at level 50, left associativity).

(** ** External numeric routines

    [talib.abstract] and the pandas rolling windows are not part of the
    strategy; each is a function from input Series to an output Series. *)

(** The names among [names], in order, that the table has no column for. *)
Definition absent (df : DataFrame) (names : list string) : list string :=
  List.filter (λ name, bool_decide (columns df !! name = None)) names.

(** The check a [talib.abstract] function makes on the table it is called
    on, [names] being the price series it computes on. *)
Definition talib_inputs (df : DataFrame) (names : list string) : result unit :=
  match absent df names with
  | [] => Ok ()
  | missing => Raise (MissingInputs missing)
  end.

Class Indicators := {
  (** [ta.EMA(dataframe, timeperiod)], computed on [close] *)
  ta_EMA : nat → list spec_float → list spec_float;
  (** [ta.RSI(dataframe, timeperiod)], computed on [close] *)
  ta_RSI : nat → list spec_float → list spec_float;
  (** [ta.ADX(dataframe, timeperiod)], computed on [high], [low], [close] *)
  ta_ADX : nat → list spec_float → list spec_float → list spec_float → list spec_float;
  (** [ta.ATR(dataframe, timeperiod)], computed on [high], [low], [close] *)
  ta_ATR : nat → list spec_float → list spec_float → list spec_float → list spec_float;
  (** [series.rolling(window).mean()], [.max()], [.min()] *)
  rolling_mean : nat → list spec_float → list spec_float;
  rolling_max : nat → list spec_float → list spec_float;
  rolling_min : nat → list spec_float → list spec_float;
}.

(** On a series shorter than every look-back window each routine answers
    "not yet available" at every bar. *)
Definition insufficient_history : Indicators := {|
  ta_EMA _ xs := replicate (length xs) F64.nan;
  ta_RSI _ xs := replicate (length xs) F64.nan;
  ta_ADX _ _ _ xs := replicate (length xs) F64.nan;
  ta_ATR _ _ _ xs := replicate (length xs) F64.nan;
  rolling_mean _ xs := replicate (length xs) F64.nan;
  rolling_max _ xs := replicate (length xs) F64.nan;
  rolling_min _ xs := replicate (length xs) F64.nan;
|}.

Record MACD_result := mkMACD {
  macd : list spec_float;
  macdsignal : list spec_float;
  macdhist : list spec_float;
}.

(** Modelled from the spec: TA-Lib's [MACD] is not in the repository.  The
    spec gives it as "EMA(Mf) − EMA(Ms) as macd line; EMA(Msig) of macd line
    as signal line; histogram = macd − signal". *)
Definition ta_MACD `{Indicators} (fastperiod slowperiod signalperiod : nat)
    (close : list spec_float) : MACD_result :=
  let line := Series.sub (ta_EMA fastperiod close) (ta_EMA slowperiod close) in
  let signal := ta_EMA signalperiod line in
  mkMACD line signal (Series.sub line signal).

(** ** The strategy *)

Module ImprovedBreakoutStrategy.

Definition ema_fast : nat := 20.
Definition ema_slow : nat := 50.
Definition rsi_period : nat := 14.
Definition rsi_oversold : Z := 30.
Definition rsi_overbought : Z := 70.
Definition adx_period : nat := 14.
Definition adx_threshold : Z := 25.
Definition macd_fast : nat := 12.
Definition macd_slow : nat := 26.
Definition macd_signal : nat := 9.
Definition atr_period : nat := 14.
Definition min_volume_multiplier : spec_float := F64.of_ratio 8 10.
Definition startup_candle_count : nat := 200.

(** [f'ema_{period}'] *)
Definition ema_column (period : nat) : string := "ema_" +:+ pretty period.

(** A TA-Lib routine applied to the table first checks that the table has
    the price columns it computes on, and then reads them. *)
Definition on_close {A} (f : list spec_float → A) (df : DataFrame) : result A :=
  talib_inputs df ["close"];;
  close ← getitem df "close";
  mret (f close).

Definition on_high_low_close {A}
    (f : list spec_float → list spec_float → list spec_float → A)
    (df : DataFrame) : result A :=
  talib_inputs df ["high"; "low"; "close"];;
  high ← getitem df "high";
  low ← getitem df "low";
  close ← getitem df "close";
  mret (f high low close).

Definition populate_indicators `{Indicators} (df : DataFrame) : result DataFrame :=
  (* EMAs *)
  fast ← on_close (ta_EMA ema_fast) df;
  let df := setitem df (ema_column ema_fast) (FloatCol fast) in
  slow ← on_close (ta_EMA ema_slow) df;
  let df := setitem df (ema_column ema_slow) (FloatCol slow) in
  (* RSI *)
  rsi ← on_close (ta_RSI rsi_period) df;
  let df := setitem df "rsi" (FloatCol rsi) in
  (* MACD *)
  m ← on_close (ta_MACD macd_fast macd_slow macd_signal) df;
  let df := setitem df "macd" (FloatCol (macd m)) in
  let df := setitem df "macd_signal" (FloatCol (macdsignal m)) in
  let df := setitem df "macd_hist" (FloatCol (macdhist m)) in
  (* ADX *)
  adx ← on_high_low_close (ta_ADX adx_period) df;
  let df := setitem df "adx" (FloatCol adx) in
  (* ATR for breakout threshold *)
  atr ← on_high_low_close (ta_ATR atr_period) df;
  let df := setitem df "atr" (FloatCol atr) in
  (* Volume moving average *)
  volume ← getitem df "volume";
  let df := setitem df "vol_ma20" (FloatCol (rolling_mean 20 volume)) in
  (* Recent highs / lows for breakout reference *)
  let lookback := 20 in
  high ← getitem df "high";
  let df := setitem df "high_recent" (FloatCol (rolling_max lookback high)) in
  low ← getitem df "low";
  let df := setitem df "low_recent" (FloatCol (rolling_min lookback low)) in
  (* close - ema(slow) *)
  close ← getitem df "close";
  slow ← getitem df (ema_column ema_slow);
  let df := setitem df "price_above_ema_slow" (FloatCol (Series.sub close slow)) in
  mret df.

Definition breakout_multiplier : spec_float := F64.of_ratio 7 10.

(** The two masked assignments that end both signal functions:
    [df.loc[long, name] = 1] and then [df.loc[short, name] = -1]. *)
Definition assign_signals (df : DataFrame) (name : string)
    (long short : list bool) : result DataFrame :=
  df ← loc_set df long name 1;
  loc_set df short name (-1).

Definition populate_entry_trend (df : DataFrame) : result DataFrame :=
  (* no entries until enough candles present *)
  df ← loc_set_all df "enter" 0;
  if bool_decide (shape0 df < startup_candle_count) then mret df else
  (* the columns, in the order the conditions first read them *)
  close ← getitem df "close";
  high_recent ← getitem df "high_recent";
  atr ← getitem df "atr";
  macd ← getitem df "macd";
  signal ← getitem df "macd_signal";
  slow ← getitem df (ema_column ema_slow);
  volume ← getitem df "volume";
  vol_ma20 ← getitem df "vol_ma20";
  adx ← getitem df "adx";
  low_recent ← getitem df "low_recent";
  rsi ← getitem df "rsi";
  fast ← getitem df (ema_column ema_fast);
  let long_breakout :=
    Series.gt close (Series.add high_recent (Series.mul_scalar atr breakout_multiplier))
    &&& Series.gt macd signal
    &&& Series.gt close slow
    &&& Series.ge volume (Series.mul_scalar vol_ma20 min_volume_multiplier)
    &&& Series.ge_scalar adx (F64.of_Z adx_threshold) in
  let short_breakout :=
    Series.lt close (Series.sub low_recent (Series.mul_scalar atr breakout_multiplier))
    &&& Series.lt macd signal
    &&& Series.lt close slow
    &&& Series.ge volume (Series.mul_scalar vol_ma20 min_volume_multiplier)
    &&& Series.ge_scalar adx (F64.of_Z adx_threshold) in
  let range_long :=
    Series.lt_scalar adx (F64.of_Z adx_threshold)
    &&& Series.le_scalar rsi (F64.of_Z rsi_oversold)
    &&& Series.gt close fast in
  let range_short :=
    Series.lt_scalar adx (F64.of_Z adx_threshold)
    &&& Series.ge_scalar rsi (F64.of_Z rsi_overbought)
    &&& Series.lt close fast in
  let consolidation_long :=
    Series.lt_scalar adx (F64.of_Z adx_threshold)
    &&& Series.le_scalar rsi (F64.of_Z (rsi_oversold + 5))
    &&& Series.gt macd signal in
  let consolidation_short :=
    Series.lt_scalar adx (F64.of_Z adx_threshold)
    &&& Series.ge_scalar rsi (F64.of_Z (rsi_overbought - 5))
    &&& Series.lt macd signal in
  assign_signals df "enter"
    (long_breakout ||| range_long ||| consolidation_long)
    (short_breakout ||| range_short ||| consolidation_short).

Definition populate_exit_trend (df : DataFrame) : result DataFrame :=
  df ← loc_set_all df "exit" 0;
  close ← getitem df "close";
  slow ← getitem df (ema_column ema_slow);
  rsi ← getitem df "rsi";
  let exit_long :=
    Series.lt close slow ||| Series.ge_scalar rsi (F64.of_Z rsi_overbought) in
  let exit_short :=
    Series.gt close slow ||| Series.le_scalar rsi (F64.of_Z rsi_oversold) in
  assign_signals df "exit" exit_long exit_short.

End ImprovedBreakoutStrategy.

Import ImprovedBreakoutStrategy.

(** The three hooks, run in the order the host engine calls them on one
    table. *)
Definition pipeline `{Indicators} (df : DataFrame) : result DataFrame :=
  df ← populate_indicators df;
  df ← populate_entry_trend df;
  populate_exit_trend df.

(** ** One bar of the table

    The conditions of the signal functions are element-wise, so each has a
    reading at a single bar; the theorems below relate the masks computed on
    whole columns to these readings. *)

Record Row := mkRow {
  row_close : spec_float;
  row_volume : spec_float;
  row_ema_fast : spec_float;
  row_ema_slow : spec_float;
  row_rsi : spec_float;
  row_macd : spec_float;
  row_macd_signal : spec_float;
  row_adx : spec_float;
  row_atr : spec_float;
  row_vol_ma20 : spec_float;
  row_high_recent : spec_float;
  row_low_recent : spec_float;
}.

(** The cell of a numeric column at bar [i]. *)
Definition cell (df : DataFrame) (name : string) (i : nat) : option spec_float :=
  match getitem df name with
  | Ok xs => xs !! i
  | Raise _ => None
  end.

(** [df.iloc[i]], restricted to the columns the signal functions read. *)
Definition iloc (df : DataFrame) (i : nat) : option Row :=
  close ← cell df "close" i;
  volume ← cell df "volume" i;
  fast ← cell df (ema_column ema_fast) i;
  slow ← cell df (ema_column ema_slow) i;
  rsi ← cell df "rsi" i;
  macd ← cell df "macd" i;
  signal ← cell df "macd_signal" i;
  adx ← cell df "adx" i;
  atr ← cell df "atr" i;
  vol_ma20 ← cell df "vol_ma20" i;
  high_recent ← cell df "high_recent" i;
  low_recent ← cell df "low_recent" i;
  Some (mkRow close volume fast slow rsi macd signal adx atr vol_ma20
          high_recent low_recent).

(** The value of a signal column at bar [i]: the integer of an int64 cell,
    or the integer a float64 cell is equal to. *)
Definition column_signal (c : column) (i : nat) : option Z :=
  match c with
  | IntCol xs => xs !! i
  | FloatCol xs => xs !! i ≫= F64.to_Z
  end.

Definition signal_at (df : DataFrame) (name : string) (i : nat) : option Z :=
  columns df !! name ≫= λ c, column_signal c i.

Section BarConditions.
Variable r : Row.

Definition trending : bool := F64.geb (row_adx r) (F64.of_Z adx_threshold).
Definition not_trending : bool := F64.ltb (row_adx r) (F64.of_Z adx_threshold).
Definition volume_ok : bool :=
  F64.geb (row_volume r) (F64.mul (row_vol_ma20 r) min_volume_multiplier).

Definition long_breakout : bool :=
  F64.gtb (row_close r)
    (F64.add (row_high_recent r) (F64.mul (row_atr r) breakout_multiplier))
  && F64.gtb (row_macd r) (row_macd_signal r)
  && F64.gtb (row_close r) (row_ema_slow r)
  && volume_ok
  && trending.

Definition short_breakout : bool :=
  F64.ltb (row_close r)
    (F64.sub (row_low_recent r) (F64.mul (row_atr r) breakout_multiplier))
  && F64.ltb (row_macd r) (row_macd_signal r)
  && F64.ltb (row_close r) (row_ema_slow r)
  && volume_ok
  && trending.

Definition range_long : bool :=
  not_trending
  && F64.leb (row_rsi r) (F64.of_Z rsi_oversold)
  && F64.gtb (row_close r) (row_ema_fast r).

Definition range_short : bool :=
  not_trending
  && F64.geb (row_rsi r) (F64.of_Z rsi_overbought)
  && F64.ltb (row_close r) (row_ema_fast r).

Definition consolidation_long : bool :=
  not_trending
  && F64.leb (row_rsi r) (F64.of_Z (rsi_oversold + 5))
  && F64.gtb (row_macd r) (row_macd_signal r).

Definition consolidation_short : bool :=
  not_trending
  && F64.geb (row_rsi r) (F64.of_Z (rsi_overbought - 5))
  && F64.ltb (row_macd r) (row_macd_signal r).

Definition long_entry : bool := long_breakout || range_long || consolidation_long.
Definition short_entry : bool := short_breakout || range_short || consolidation_short.

End BarConditions.

(** The exit conditions read three cells of a bar. *)
Definition exit_long (close slow rsi : spec_float) : bool :=
  F64.ltb close slow || F64.geb rsi (F64.of_Z rsi_overbought).

Definition exit_short (close slow rsi : spec_float) : bool :=
  F64.gtb close slow || F64.leb rsi (F64.of_Z rsi_oversold).

(** What two masked assignments leave in a cell that started at 0. *)
Definition assigned (long short : bool) : Z :=
  if short then -1 else if long then 1 else 0.

(** The columns each signal function reads. *)
Definition entry_inputs : list string :=
  ["close"; "high_recent"; "atr"; "macd"; "macd_signal"; ema_column ema_slow;
   "volume"; "vol_ma20"; "adx"; "low_recent"; "rsi"; ema_column ema_fast].

Definition exit_inputs : list string := ["close"; ema_column ema_slow; "rsi"].

Definition price_inputs : list string := ["close"; "high"; "low"; "volume"].

Definition has_columns (df : DataFrame) (names : list string) : Prop :=
  Forall (λ name, is_Some (columns df !! name)) names.

(** The columns [populate_indicators] writes, in the order it writes them,
    as functions of the price columns it reads. *)
Definition indicator_columns `{Indicators} (close high low volume : list spec_float)
  : list (string * list spec_float) :=
  let m := ta_MACD macd_fast macd_slow macd_signal close in
  [ (ema_column ema_fast, ta_EMA ema_fast close);
    (ema_column ema_slow, ta_EMA ema_slow close);
    ("rsi", ta_RSI rsi_period close);
    ("macd", macd m);
    ("macd_signal", macdsignal m);
    ("macd_hist", macdhist m);
    ("adx", ta_ADX adx_period high low close);
    ("atr", ta_ATR atr_period high low close);
    ("vol_ma20", rolling_mean 20 volume);
    ("high_recent", rolling_max 20 high);
    ("low_recent", rolling_min 20 low);
    ("price_above_ema_slow", Series.sub close (ta_EMA ema_slow close)) ].

Definition write_columns (df : DataFrame) (cols : list (string * list spec_float))
  : DataFrame :=
  foldl (λ d kc, setitem d kc.1 (FloatCol kc.2)) df cols.

(** ** Test tables *)

Module Fixtures.

(** [n] bars without a value followed by [m] bars holding [v]. *)
Definition warm (n m : nat) (v : Z) : column :=
  FloatCol (replicate n F64.nan ++ replicate m (F64.of_Z v)).

(** A steady uptrend of [49 + n] bars: each indicator becomes available
    after its own look-back, the slow EMA last (bar 49); from then on
    close is above the recent high by more than 0.7 ATR, MACD is above its
    signal line, ADX is 30 and RSI is 55. *)
Definition uptrend (n : nat) : DataFrame :=
  mkDataFrame (49 + n) (list_to_map [
    ("close", warm 0 (49 + n) 102); ("volume", warm 0 (49 + n) 10);
    ("ema_20", warm 19 (30 + n) 95); ("ema_50", warm 49 n 90);
    ("rsi", warm 14 (35 + n) 55); ("macd", warm 33 (16 + n) 1);
    ("macd_signal", warm 33 (16 + n) 0); ("adx", warm 27 (22 + n) 30);
    ("atr", warm 14 (35 + n) 2); ("vol_ma20", warm 19 (30 + n) 10);
    ("high_recent", warm 19 (30 + n) 100);
    ("low_recent", warm 19 (30 + n) 80)]).

(** The bars of [uptrend] from bar 49 on. *)
Definition uptrend_bar : Row := {|
  row_close := F64.of_Z 102; row_volume := F64.of_Z 10;
  row_ema_fast := F64.of_Z 95; row_ema_slow := F64.of_Z 90;
  row_rsi := F64.of_Z 55; row_macd := F64.of_Z 1;
  row_macd_signal := F64.of_Z 0; row_adx := F64.of_Z 30;
  row_atr := F64.of_Z 2; row_vol_ma20 := F64.of_Z 10;
  row_high_recent := F64.of_Z 100; row_low_recent := F64.of_Z 80;
|}.



(** The bars of [uptrend] before bar 14: prices only. *)
Definition early_bar : Row := {|
  row_close := F64.of_Z 102; row_volume := F64.of_Z 10;
  row_ema_fast := F64.nan; row_ema_slow := F64.nan;
  row_rsi := F64.nan; row_macd := F64.nan;
  row_macd_signal := F64.nan; row_adx := F64.nan;
  row_atr := F64.nan; row_vol_ma20 := F64.nan;
  row_high_recent := F64.nan; row_low_recent := F64.nan;
|}.

(** Three bars of prices, before any indicator has been computed. *)
Definition prices : DataFrame :=
  mkDataFrame 3 (list_to_map [
    ("open", warm 0 3 100); ("high", warm 0 3 103); ("low", warm 0 3 99);
    ("close", warm 0 3 102); ("volume", warm 0 3 10)]).

(** The price columns without a single bar. *)
Definition no_bars : DataFrame :=
  mkDataFrame 0 (list_to_map [
    ("open", FloatCol []); ("high", FloatCol []); ("low", FloatCol []);
    ("close", FloatCol []); ("volume", FloatCol [])]).

(** [n] bars of a price that rises by 1 a bar from [base]. *)
Definition rising (n : nat) (base : Z) : column :=
  FloatCol ((λ i : nat, F64.of_Z (base + Z.of_nat i)) <$> seq 0 n).

(** [n] bars of rising prices: close 100, 101, 102, ..., each bar ranging
    from one below its close to one above. *)
Definition ramp (n : nat) : DataFrame :=
  mkDataFrame n (list_to_map [
    ("open", rising n 100); ("high", rising n 101); ("low", rising n 99);
    ("close", rising n 100); ("volume", warm 0 n 1000)]).

End Fixtures.

(** ** Numeric routines to run the hooks on numbers *)

Module Doubles.

(** pandas' [ewm(span=n, adjust=False).mean()]: [y[0] = x[0]] and
    [y[t] = (1 - a) * y[t-1] + a * x[t]] with [a = 2 / (n + 1)]. *)
Fixpoint ewm_from (a prev : spec_float) (xs : list spec_float) : list spec_float :=
  match xs with
  | [] => []
  | x :: xs =>
      let y := F64.add (F64.mul (F64.sub (F64.of_Z 1) a) prev) (F64.mul a x) in
      y :: ewm_from a y xs
  end.

Definition ewm (span : nat) (xs : list spec_float) : list spec_float :=
  match xs with
  | [] => []
  | x :: rest => x :: ewm_from (F64.of_ratio 2 (Z.of_nat span + 1)) x rest
  end.

(** A rolling window of [n] bars: no value before the window is full. *)
Definition rolling (agg : list spec_float → spec_float) (n : nat)
    (xs : list spec_float) : list spec_float :=
  (λ i, if bool_decide (i + 1 < n) then F64.nan
        else agg (take n (drop (i + 1 - n) xs))) <$> seq 0 (length xs).

Definition window_mean (w : list spec_float) : spec_float :=
  F64.div (foldl F64.add (F64.of_Z 0) w) (F64.of_Z (Z.of_nat (length w))).

Definition window_max (w : list spec_float) : spec_float :=
  match w with
  | [] => F64.nan
  | x :: w => foldl (λ m y, if F64.ltb m y then y else m) x w
  end.

Definition window_min (w : list spec_float) : spec_float :=
  match w with
  | [] => F64.nan
  | x :: w => foldl (λ m y, if F64.ltb y m then y else m) x w
  end.

(** A quiet, oversold market: the EMA follows the prices from the first
    bar, the rolling windows are computed, and the oscillators stand still
    at RSI 25, ADX 15 and ATR 1. *)
Definition quiet_market : Indicators := {|
  ta_EMA := ewm;
  ta_RSI _ xs := replicate (length xs) (F64.of_Z 25);
  ta_ADX _ _ _ xs := replicate (length xs) (F64.of_Z 15);
  ta_ATR _ _ _ xs := replicate (length xs) (F64.of_Z 1);
  rolling_mean := rolling window_mean;
  rolling_max := rolling window_max;
  rolling_min := rolling window_min;
|}.

End Doubles.

(** ** Writing into a signal column *)

(** Every cell of a column overwritten by [v], and the cells under a mask
    overwritten by [v]: what [loc_set_all] and [loc_set] do to a column the
    table has. *)
Definition column_fill (v : Z) (c : column) : column :=
  match c with
  | IntCol xs => IntCol ((λ _, v) <$> xs)
  | FloatCol xs => FloatCol ((λ _, F64.of_Z v) <$> xs)
  end.

Definition column_where (mask : list bool) (v : Z) (c : column) : column :=
  match c with
  | IntCol xs => IntCol (where_ mask v xs)
  | FloatCol xs => FloatCol (where_ mask (F64.of_Z v) xs)
  end.

(** The column a scalar assignment under [name] writes into: the one the
    table has, or a new int64 column when the table has rows. *)
Definition start_column (df : DataFrame) (name : string) : option column :=
  match columns df !! name with
  | Some c => Some c
  | None =>
      if bool_decide (shape0 df = 0) then None
      else Some (IntCol (replicate (shape0 df) 0%Z))
  end.

(** A table to which a scalar can be assigned under [name]. *)
Definition writable (df : DataFrame) (name : string) : Prop :=
  0 < shape0 df ∨ is_Some (columns df !! name).

(** Two columns of the same dtype and length. *)
Definition same_layout (c1 c2 : column) : Prop :=
  match c1, c2 with
  | IntCol xs, IntCol ys => length xs = length ys
  | FloatCol xs, FloatCol ys => length xs = length ys
  | _, _ => False
  end.

(** ** The market-mode classifier *)

(** A row of the table as [_market_mode] receives it: a mapping from column
    names to cells; [row[name]] raises [KeyError] on a missing name. *)
Definition row_getitem (row : gmap string spec_float) (name : string)
  : result spec_float :=
  match row !! name with
  | Some x => Ok x
  | None => Raise (KeyError name)
  end.

Definition _market_mode (row : gmap string spec_float) : result string :=
  adx ← row_getitem row "adx";
  price_vs_ema ← row_getitem row "price_above_ema_slow";
  if F64.geb adx (F64.of_Z adx_threshold) then
    (* trending market: upward or downward depending on price vs EMA *)
    mret (if F64.gtb price_vs_ema (F64.of_Z 0) then "strong_up" else "strong_down")
  else
    (* non trending: [row['rsi'] < 60 and row['rsi'] > 40] *)
    rsi ← row_getitem row "rsi";
    mret (if F64.ltb rsi (F64.of_Z 60) && F64.gtb rsi (F64.of_Z 40)
          then "range" else "consolidation").

(** [df.iloc[i]]: the cells of bar [i], integer cells read as float64. *)
Definition column_cell (c : column) (i : nat) : option spec_float :=
  match c with
  | FloatCol xs => xs !! i
  | IntCol xs => F64.of_Z <$> xs !! i
  end.

Definition row_at (df : DataFrame) (i : nat) : gmap string spec_float :=
  omap (λ c, column_cell c i) (columns df).

(** ** Assumptions on the numeric routines and on cells *)

(** TA-Lib and the rolling windows return one value per input bar. *)
Definition length_preserving (I : Indicators) : Prop :=
  (∀ n xs, length (ta_EMA n xs) = length xs) ∧
  (∀ n xs, length (ta_RSI n xs) = length xs) ∧
  (∀ n hs ls cs, length hs = length cs → length ls = length cs →
     length (ta_ADX n hs ls cs) = length cs) ∧
  (∀ n hs ls cs, length hs = length cs → length ls = length cs →
     length (ta_ATR n hs ls cs) = length cs) ∧
  (∀ n xs, length (rolling_mean n xs) = length xs) ∧
  (∀ n xs, length (rolling_max n xs) = length xs) ∧
  (∀ n xs, length (rolling_min n xs) = length xs).

(** The three values a signal cell takes. *)
Definition signal_value (v : Z) : Prop := v = (-1)%Z ∨ v = 0%Z ∨ v = 1%Z.

(** The columns [populate_indicators] writes. *)
Definition indicator_names : list string :=
  [ema_column ema_fast; ema_column ema_slow; "rsi"; "macd"; "macd_signal";
   "macd_hist"; "adx"; "atr"; "vol_ma20"; "high_recent"; "low_recent";
   "price_above_ema_slow"].

(** The 200-bar uptrend with the momentum offset close - ema_50 = 12 from
    bar 49 on. *)
Definition uptrend_with_offset : DataFrame :=
  setitem (Fixtures.uptrend 151) "price_above_ema_slow" (Fixtures.warm 49 151 12).

(** [df.drop(columns=[name])] *)
Definition drop_column (df : DataFrame) (name : string) : DataFrame :=
  mkDataFrame (shape0 df) (delete name (columns df)).

(** The first of [names], in order, that the table has no column for. *)
Definition first_missing (df : DataFrame) (names : list string) : option string :=
  List.find (λ name, bool_decide (columns df !! name = None)) names.

(** A cell that holds a binary64 number, as every cell of a numpy float64
    array does: NaN, an infinity, a zero, or a mantissa and exponent in
    canonical form. *)
Definition is_binary64 (x : spec_float) : Prop := valid_binary F64.prec F64.emax x = true.

(** * Properties *)

(** ** The order of binary64 *)

Section FloatOrder.
Implicit Types x y z : spec_float.

Ltac order_cases :=
  repeat match goal with
    | b : bool |- _ => destruct b
    | |- context [Z.compare ?a ?b] => destruct (Z.compare_spec a b)
    | |- context [Pos.compare_cont Eq ?a ?b] =>
        change (Pos.compare_cont Eq a b) with (Pos.compare a b);
        destruct (Pos.compare_spec a b)
    end;
  simpl in *; try discriminate; try reflexivity; try lia.

Lemma ltb_asym x y : F64.ltb x y = true → F64.ltb y x = false.
Proof.
  unfold F64.ltb, SFltb. destruct x, y; simpl; order_cases.
Qed.

Lemma leb_ltb_false x y : F64.leb x y = true → F64.ltb y x = false.
Proof.
  unfold F64.ltb, F64.leb, SFltb, SFleb. destruct x, y; simpl; order_cases.
Qed.

Lemma leb_ltb_leb_false x y z :
  F64.leb x y = true → F64.ltb y z = true → F64.leb z x = false.
Proof.
  unfold F64.ltb, F64.leb, SFltb, SFleb.
  destruct x, y, z; simpl; order_cases.
Qed.

(** Every comparison with NaN is false. *)
Lemma nan_compare x :
  F64.ltb F64.nan x = false ∧ F64.ltb x F64.nan = false ∧
  F64.leb F64.nan x = false ∧ F64.leb x F64.nan = false.
Proof. by destruct x. Qed.
End FloatOrder.

(** ** Tables *)

Lemma bind_Ok {A B} (a : A) (f : A → result B) : Ok a ≫= f = f a.
Proof. reflexivity. Qed.

Lemma ema_slow_name : ema_column ema_slow = "ema_50".
Proof. reflexivity. Qed.

Lemma ema_fast_name : ema_column ema_fast = "ema_20".
Proof. reflexivity. Qed.

Lemma getitem_setitem_ne df c col name :
  c ≠ name → getitem (setitem df c col) name = getitem df name.
Proof. intros Hne. unfold getitem, setitem; simpl. by rewrite lookup_insert_ne. Qed.

Lemma getitem_setitem_eq df c xs : getitem (setitem df c (FloatCol xs)) c = Ok xs.
Proof. unfold getitem, setitem; simpl. by rewrite lookup_insert_eq. Qed.

Lemma getitem_length df name xs :
  aligned df → getitem df name = Ok xs → length xs = shape0 df.
Proof.
  intros Hal. unfold getitem.
  destruct (columns df !! name) as [[ys|ys]|] eqn:Hc; intros [= <-];
    specialize (Hal _ _ Hc); simpl in Hal; by rewrite ?length_fmap.
Qed.

Lemma getitem_is_Some df name :
  is_Some (columns df !! name) → ∃ xs, getitem df name = Ok xs.
Proof. unfold getitem. intros [[ys|ys] ->]; eauto. Qed.

Lemma cell_Some df name i x :
  cell df name i = Some x ↔ ∃ xs, getitem df name = Ok xs ∧ xs !! i = Some x.
Proof.
  unfold cell. destruct (getitem df name) as [xs|e]; split.
  - eauto.
  - by intros (? & [= <-] & ?).
  - done.
  - by intros (? & ? & ?).
Qed.

Lemma cell_lt df name i x : aligned df → cell df name i = Some x → i < shape0 df.
Proof.
  intros Hal Hcell. apply cell_Some in Hcell as (xs & Hget & Hi).
  rewrite <- (getitem_length _ _ _ Hal Hget). by eapply lookup_lt_Some.
Qed.

Lemma signal_at_setitem df name c i :
  signal_at (setitem df name c) name i = column_signal c i.
Proof. unfold signal_at, setitem; simpl. by rewrite lookup_insert_eq. Qed.

Lemma signal_at_setitem_ne df c col name i :
  c ≠ name → signal_at (setitem df c col) name i = signal_at df name i.
Proof. intros Hne. unfold signal_at, setitem; simpl. by rewrite lookup_insert_ne. Qed.

Lemma setitem_setitem df name c1 c2 :
  setitem (setitem df name c1) name c2 = setitem df name c2.
Proof. unfold setitem; simpl. by rewrite insert_insert_eq. Qed.

Lemma setitem_commute df k1 c1 k2 c2 :
  k1 ≠ k2 → setitem (setitem df k1 c1) k2 c2 = setitem (setitem df k2 c2) k1 c1.
Proof. intros Hne. unfold setitem; simpl. f_equal. by apply insert_insert_ne. Qed.

Lemma setitem_id df k c : columns df !! k = Some c → setitem df k c = df.
Proof. destruct df as [n cols]. unfold setitem; simpl. intros Hk. f_equal. by apply insert_id. Qed.

Lemma aligned_setitem df name c :
  aligned df → column_length c = shape0 df → aligned (setitem df name c).
Proof. intros Hal Hlen. unfold aligned, setitem; simpl. by apply map_Forall_insert_2. Qed.

(** ** The scalar assignment *)

Lemma loc_set_all_start df name v :
  loc_set_all df name v
  = match start_column df name with
    | Some c => Ok (setitem df name (column_fill v c))
    | None => Raise ValueError
    end.
Proof.
  unfold loc_set_all, start_column.
  destruct (columns df !! name) as [[xs|xs]|]; [done|done|].
  case_bool_decide; [done|]. simpl. by rewrite fmap_replicate.
Qed.

Lemma start_column_setitem df name c : start_column (setitem df name c) name = Some c.
Proof. unfold start_column; simpl. by rewrite lookup_insert_eq. Qed.

Lemma start_column_setitem_ne df k c name :
  k ≠ name → start_column (setitem df k c) name = start_column df name.
Proof. intros Hne. unfold start_column; simpl. by rewrite lookup_insert_ne. Qed.

Lemma start_column_writable df name :
  writable df name → is_Some (start_column df name).
Proof.
  unfold writable, start_column. intros [Hpos|[c ->]]; [|eauto].
  destruct (columns df !! name); [eauto|].
  rewrite bool_decide_eq_false_2 by lia. eauto.
Qed.

Lemma start_column_None df name :
  start_column df name = None ↔ shape0 df = 0 ∧ columns df !! name = None.
Proof.
  unfold start_column. destruct (columns df !! name).
  - split; [done|]. by intros [_ ?].
  - case_bool_decide; [done|]. split; [done|]. by intros [? _].
Qed.

Lemma start_column_length df name c :
  aligned df → start_column df name = Some c → column_length c = shape0 df.
Proof.
  intros Hal. unfold start_column.
  destruct (columns df !! name) as [c'|] eqn:Hc.
  - intros [= <-]. by apply (Hal _ _ Hc).
  - case_bool_decide; [done|]. intros [= <-]. simpl. apply length_replicate.
Qed.

Lemma start_column_new df name :
  columns df !! name = None → 0 < shape0 df →
  start_column df name = Some (IntCol (replicate (shape0 df) 0%Z)).
Proof.
  intros Hc Hpos. unfold start_column. rewrite Hc.
  by rewrite bool_decide_eq_false_2 by lia.
Qed.

Lemma column_length_fill v c : column_length (column_fill v c) = column_length c.
Proof. destruct c; simpl; by rewrite length_fmap. Qed.

Lemma column_length_where mask v c n :
  length mask = n → column_length c = n → column_length (column_where mask v c) = n.
Proof.
  intros Hm Hc. destruct c; simpl in *; unfold where_; rewrite length_zip_with; lia.
Qed.

Lemma column_fill_fill v c : column_fill v (column_fill v c) = column_fill v c.
Proof. destruct c; simpl; f_equal; by rewrite <- list_fmap_compose. Qed.


Lemma same_layout_fill v c : same_layout c (column_fill v c).
Proof. destruct c; simpl; by rewrite length_fmap. Qed.

Lemma same_layout_signals (long short : list bool) c :
  length long = column_length c → length short = column_length c →
  same_layout c (column_where short (-1) (column_where long 1 (column_fill 0 c))).
Proof.
  destruct c; simpl; intros Hl Hs; unfold where_;
    rewrite !length_zip_with, length_fmap; lia.
Qed.

(** The layout of the signal column a function leaves: int64 when the table
    had no such column, the dtype of the column that was there otherwise. *)
Lemma start_column_layout df name c :
  (∀ c0, start_column df name = Some c0 → same_layout c0 c) →
  (columns df !! name = None → 0 < shape0 df → ∃ xs, c = IntCol xs) ∧
  (∀ c0, columns df !! name = Some c0 → same_layout c0 c).
Proof.
  intros Hlayout. split.
  - intros Hnone Hpos. specialize (Hlayout _ (start_column_new _ _ Hnone Hpos)).
    destruct c; [done|eauto].
  - intros c0 Hc0. apply Hlayout. unfold start_column. by rewrite Hc0.
Qed.

Lemma loc_set_all_setitem df name c v :
  loc_set_all (setitem df name c) name v = Ok (setitem df name (column_fill v c)).
Proof. by rewrite loc_set_all_start, start_column_setitem, setitem_setitem. Qed.

Lemma loc_set_all_setitem_ne df k c name v :
  k ≠ name →
  loc_set_all (setitem df k c) name v
  = loc_set_all df name v ≫= λ d, Ok (setitem d k c).
Proof.
  intros Hne. rewrite !loc_set_all_start, start_column_setitem_ne by done.
  destruct (start_column df name); [|done].
  rewrite bind_Ok. f_equal. by apply setitem_commute.
Qed.

(** ** The masked assignments *)

Lemma loc_set_present df mask name v c :
  length mask = shape0 df → columns df !! name = Some c →
  loc_set df mask name v = Ok (setitem df name (column_where mask v c)).
Proof.
  intros Hlen Hc. unfold loc_set.
  rewrite bool_decide_eq_true_2 by done. rewrite Hc. by destruct c.
Qed.

Lemma assign_signals_present df name long short c :
  length long = shape0 df → length short = shape0 df →
  columns df !! name = Some c →
  assign_signals df name long short
  = Ok (setitem df name (column_where short (-1) (column_where long 1 c))).
Proof.
  intros Hl Hs Hc. unfold assign_signals.
  rewrite (loc_set_present _ _ _ _ c) by done. rewrite bind_Ok.
  rewrite (loc_set_present _ _ _ _ (column_where long 1 c));
    [|done|simpl; apply lookup_insert_eq].
  by rewrite setitem_setitem.
Qed.

Lemma assign_signals_start df name long short c :
  start_column df name = Some c →
  length long = shape0 df → length short = shape0 df →
  (loc_set_all df name 0 ≫= λ df0, assign_signals df0 name long short)
  = Ok (setitem df name
          (column_where short (-1) (column_where long 1 (column_fill 0 c)))).
Proof.
  intros Hc Hl Hs. rewrite loc_set_all_start, Hc, bind_Ok.
  rewrite (assign_signals_present _ _ _ _ (column_fill 0 c));
    [|done|done|simpl; apply lookup_insert_eq].
  by rewrite setitem_setitem.
Qed.

(** The cells of a signal column, read as integers. *)
Lemma column_signal_fill c i :
  i < column_length c → column_signal (column_fill 0 c) i = Some 0%Z.
Proof.
  destruct c as [xs|xs]; simpl; intros Hi; rewrite list_lookup_fmap;
    destruct (lookup_lt_is_Some_2 xs i Hi) as [x ->]; reflexivity.
Qed.


Lemma column_signal_assigned (long short : list bool) c i (l s : bool) :
  long !! i = Some l → short !! i = Some s → i < column_length c →
  column_signal
    (column_where short (-1) (column_where long 1 (column_fill 0 c))) i
  = Some (assigned l s).
Proof.
  intros Hl Hs Hi. destruct c as [xs|xs]; simpl in *; unfold where_;
    rewrite !lookup_zip_with, list_lookup_fmap, Hl, Hs;
    destruct (lookup_lt_is_Some_2 xs i Hi) as [x ->]; simpl; by destruct l, s.
Qed.

(** Writing the same signals a second time, into the column that holds them,
    changes nothing. *)
Lemma column_where_again (long short : list bool) c :
  column_where short (-1)
    (column_where long 1
       (column_fill 0
          (column_where short (-1) (column_where long 1 (column_fill 0 c)))))
  = column_where short (-1) (column_where long 1 (column_fill 0 c)).
Proof.
  destruct c as [xs|xs]; simpl; f_equal; apply list_eq; intros i; unfold where_;
    repeat (rewrite lookup_zip_with || rewrite list_lookup_fmap);
    destruct (short !! i), (long !! i), (xs !! i); done.
Qed.

(** ** Closed forms of the signal functions *)

Lemma length_zip_with_both {A B C} (f : A → B → C) xs ys n :
  length xs = n → length ys = n → length (zip_with f xs ys) = n.
Proof. intros Hx Hy. rewrite length_zip_with. lia. Qed.

Lemma length_fmap_both {A B} (f : A → B) xs n :
  length xs = n → length (f <$> xs) = n.
Proof. intros Hx. by rewrite length_fmap. Qed.

Ltac series_length :=
  unfold Series.and, Series.or, Series.gt, Series.lt, Series.ge, Series.add,
    Series.sub, Series.mul_scalar, Series.ge_scalar, Series.le_scalar,
    Series.lt_scalar;
  repeat first
    [ assumption
    | apply length_zip_with_both
    | apply length_fmap_both ].

Ltac series_lookup :=
  unfold Series.and, Series.or, Series.gt, Series.lt, Series.ge, Series.add,
    Series.sub, Series.mul_scalar, Series.ge_scalar, Series.le_scalar,
    Series.lt_scalar;
  rewrite ?lookup_zip_with, ?list_lookup_fmap.

Ltac columns_present H :=
  repeat match type of H with
    | Forall _ (_ :: _) =>
        let Hc := fresh "Hc" in
        apply Forall_cons in H as [Hc H];
        apply getitem_is_Some in Hc as [? Hc]
    end.

Ltac read_columns :=
  repeat match goal with
    | |- context [getitem (setitem _ _ _) _] =>
        rewrite getitem_setitem_ne by discriminate
    | H : getitem ?df ?name = Ok _ |- context [getitem ?df ?name] =>
        rewrite H, bind_Ok
    end.

Ltac column_lengths Hal :=
  repeat match goal with
    | H : getitem _ _ = Ok ?xs |- _ =>
        lazymatch goal with
        | _ : length xs = _ |- _ => fail
        | _ => pose proof (getitem_length _ _ _ Hal H)
        end
    end.

Lemma populate_entry_trend_short df :
  shape0 df < startup_candle_count →
  populate_entry_trend df = loc_set_all df "enter" 0.
Proof.
  intros Hlt. unfold populate_entry_trend. rewrite loc_set_all_start.
  destruct (start_column df "enter"); [|done].
  rewrite bind_Ok. by rewrite bool_decide_eq_true_2.
Qed.

(** On a table of at least 200 bars the function is the scalar assignment
    followed by the two masked assignments, under the masks of the long and
    of the short groups. *)
Lemma populate_entry_trend_masks df :
  aligned df → startup_candle_count ≤ shape0 df → has_columns df entry_inputs →
  ∃ long short,
    populate_entry_trend df
    = (loc_set_all df "enter" 0 ≫= λ df0, assign_signals df0 "enter" long short) ∧
    length long = shape0 df ∧ length short = shape0 df ∧
    ∀ i r, iloc df i = Some r →
      long !! i = Some (long_entry r) ∧ short !! i = Some (short_entry r).
Proof.
  intros Hal Hge Hcols. unfold has_columns, entry_inputs in Hcols.
  rewrite ema_slow_name, ema_fast_name in Hcols.
  columns_present Hcols. column_lengths Hal.
  eexists _, _. split.
  { unfold populate_entry_trend. rewrite loc_set_all_start.
    destruct (start_column df "enter") as [c0|] eqn:Hstart.
    - rewrite !bind_Ok. cbn [shape0 setitem].
      case_bool_decide as Hlt; [lia|].
      rewrite ema_slow_name, ema_fast_name.
      read_columns. reflexivity.
    - apply start_column_None in Hstart as [Hzero _].
      unfold startup_candle_count in Hge. lia. }
  split; [series_length|]. split; [series_length|].
  intros i r Hrow. unfold iloc, cell in Hrow.
  rewrite ema_slow_name, ema_fast_name in Hrow.
  repeat match type of Hrow with
    | context [getitem df ?name] =>
        match goal with H : getitem df name = Ok _ |- _ => rewrite H in Hrow end
    end.
  repeat match type of Hrow with
    | (?o ≫= _) = Some _ =>
        let E := fresh "E" in destruct o eqn:E; [simpl in Hrow | discriminate]
    end.
  injection Hrow as <-.
  series_lookup.
  repeat match goal with E : _ !! i = Some _ |- _ => rewrite E; clear E end.
  split; reflexivity.
Qed.

Lemma iloc_lt df i r : aligned df → iloc df i = Some r → i < shape0 df.
Proof.
  intros Hal Hrow. unfold iloc in Hrow.
  destruct (cell df "close" i) as [x|] eqn:Hclose; [|discriminate].
  by eapply cell_lt.
Qed.

Lemma populate_entry_trend_warm df :
  aligned df → startup_candle_count ≤ shape0 df → has_columns df entry_inputs →
  ∃ c,
    populate_entry_trend df = Ok (setitem df "enter" c) ∧
    column_length c = shape0 df ∧
    (∀ c0, start_column df "enter" = Some c0 → same_layout c0 c) ∧
    ∀ i r, iloc df i = Some r →
      column_signal c i = Some (assigned (long_entry r) (short_entry r)).
Proof.
  intros Hal Hge Hcols.
  destruct (populate_entry_trend_masks df Hal Hge Hcols)
    as (long & short & Hrun & Hlong & Hshort & Hmasks).
  destruct (start_column_writable df "enter") as [c0 Hstart];
    [left; unfold startup_candle_count in Hge; lia|].
  pose proof (start_column_length _ _ _ Hal Hstart) as Hlen.
  rewrite (assign_signals_start _ _ _ _ c0) in Hrun by done.
  eexists. split; [exact Hrun|]. split.
  { repeat apply column_length_where; try done. by rewrite column_length_fill. }
  split.
  { intros c0' Hc0'. assert (c0' = c0) as -> by congruence.
    apply same_layout_signals; congruence. }
  intros i r Hrow. destruct (Hmasks i r Hrow) as [Hl Hs].
  apply column_signal_assigned; [done|done|].
  rewrite Hlen. by eapply iloc_lt.
Qed.

Lemma populate_exit_trend_masks df :
  aligned df → has_columns df exit_inputs →
  ∃ long short,
    populate_exit_trend df
    = (loc_set_all df "exit" 0 ≫= λ df0, assign_signals df0 "exit" long short) ∧
    length long = shape0 df ∧ length short = shape0 df ∧
    ∀ i close slow rsi,
      cell df "close" i = Some close →
      cell df (ema_column ema_slow) i = Some slow →
      cell df "rsi" i = Some rsi →
      long !! i = Some (exit_long close slow rsi) ∧
      short !! i = Some (exit_short close slow rsi).
Proof.
  intros Hal Hcols. unfold has_columns, exit_inputs in Hcols.
  rewrite ema_slow_name in Hcols.
  columns_present Hcols. column_lengths Hal.
  eexists _, _. split.
  { unfold populate_exit_trend. rewrite loc_set_all_start.
    destruct (start_column df "exit") as [c0|] eqn:Hstart; [|reflexivity].
    rewrite !bind_Ok. rewrite ema_slow_name.
    read_columns. reflexivity. }
  split; [series_length|]. split; [series_length|].
  intros i close slow rsi Hclose Hslow Hrsi.
  unfold cell in Hclose, Hslow, Hrsi. rewrite ema_slow_name in Hslow.
  repeat match goal with
    | H : getitem df ?name = Ok _, H' : context [getitem df ?name] |- _ =>
        rewrite H in H'
    end.
  series_lookup. rewrite Hclose, Hslow, Hrsi. split; reflexivity.
Qed.

Lemma populate_exit_trend_closed df :
  aligned df → has_columns df exit_inputs → writable df "exit" →
  ∃ c,
    populate_exit_trend df = Ok (setitem df "exit" c) ∧
    column_length c = shape0 df ∧
    (∀ c0, start_column df "exit" = Some c0 → same_layout c0 c) ∧
    ∀ i close slow rsi,
      cell df "close" i = Some close →
      cell df (ema_column ema_slow) i = Some slow →
      cell df "rsi" i = Some rsi →
      column_signal c i
      = Some (assigned (exit_long close slow rsi) (exit_short close slow rsi)).
Proof.
  intros Hal Hcols Hwrite.
  destruct (populate_exit_trend_masks df Hal Hcols)
    as (long & short & Hrun & Hlong & Hshort & Hmasks).
  destruct (start_column_writable df "exit" Hwrite) as [c0 Hstart].
  pose proof (start_column_length _ _ _ Hal Hstart) as Hlen.
  rewrite (assign_signals_start _ _ _ _ c0) in Hrun by done.
  eexists. split; [exact Hrun|]. split.
  { repeat apply column_length_where; try done. by rewrite column_length_fill. }
  split.
  { intros c0' Hc0'. assert (c0' = c0) as -> by congruence.
    apply same_layout_signals; congruence. }
  intros i close slow rsi Hclose Hslow Hrsi.
  destruct (Hmasks i close slow rsi Hclose Hslow Hrsi) as [Hl Hs].
  apply column_signal_assigned; [done|done|].
  rewrite Hlen. by eapply cell_lt.
Qed.

(** A bar of the table and the columns behind it. *)
Lemma cell_is_Some df name i x :
  cell df name i = Some x → is_Some (columns df !! name).
Proof.
  unfold cell, getitem. destruct (columns df !! name) as [[?|?]|]; eauto.
  discriminate.
Qed.

Lemma iloc_has_columns df i r : iloc df i = Some r → has_columns df entry_inputs.
Proof.
  unfold iloc. intros Hrow.
  repeat match type of Hrow with
    | (?o ≫= _) = Some _ =>
        let E := fresh "E" in
        destruct o eqn:E; [simpl in Hrow; apply cell_is_Some in E | discriminate]
    end.
  unfold has_columns, entry_inputs. repeat constructor; assumption.
Qed.

Lemma iloc_cells df i r :
  iloc df i = Some r →
  cell df "close" i = Some (row_close r) ∧
  cell df (ema_column ema_slow) i = Some (row_ema_slow r) ∧
  cell df "rsi" i = Some (row_rsi r).
Proof.
  unfold iloc. intros Hrow.
  repeat match type of Hrow with
    | (?o ≫= _) = Some _ =>
        let E := fresh "E" in destruct o eqn:E; [simpl in Hrow | discriminate]
    end.
  by injection Hrow as <-.
Qed.

Lemma has_columns_exit df : has_columns df entry_inputs → has_columns df exit_inputs.
Proof.
  unfold has_columns, entry_inputs, exit_inputs. intros H.
  repeat match type of H with
    | Forall _ (_ :: _) => let Hc := fresh "Hc" in apply Forall_cons in H as [Hc H]
    end.
  repeat constructor; assumption.
Qed.

(** Writing a signal column leaves the other columns as they are. *)
Lemma cell_setitem_ne df c col name i :
  c ≠ name → cell (setitem df c col) name i = cell df name i.
Proof. intros Hne. unfold cell. by rewrite getitem_setitem_ne. Qed.

Lemma has_columns_setitem df c col names :
  has_columns df names → has_columns (setitem df c col) names.
Proof.
  unfold has_columns. intros H. eapply Forall_impl; [exact H|].
  intros name [x Hx]. simpl.
  destruct (decide (c = name)) as [->|Hne].
  - rewrite lookup_insert_eq. eauto.
  - rewrite lookup_insert_ne by done. eauto.
Qed.

(** With ADX not available no entry group holds; with the slow EMA and RSI
    not available no exit condition holds. *)
Lemma no_entry_without_adx r :
  row_adx r = F64.nan → long_entry r = false ∧ short_entry r = false.
Proof.
  intros Hadx.
  unfold long_entry, short_entry, long_breakout, short_breakout, range_long,
    range_short, consolidation_long, consolidation_short, trending, not_trending.
  rewrite Hadx.
  change (F64.geb F64.nan (F64.of_Z adx_threshold)) with false.
  change (F64.ltb F64.nan (F64.of_Z adx_threshold)) with false.
  rewrite !andb_false_r. done.
Qed.

Lemma no_exit_without_indicators close :
  exit_long close F64.nan F64.nan = false ∧ exit_short close F64.nan F64.nan = false.
Proof.
  by destruct close.
Qed.

(** The entry groups of opposite sign exclude each other. *)
Lemma not_trending_not_trending r : not_trending r = true → trending r = false.
Proof.
  unfold not_trending, trending, F64.geb. intros Hlt.
  destruct (F64.leb (F64.of_Z adx_threshold) (row_adx r)) eqn:Hle; [|done].
  apply leb_ltb_false in Hle. congruence.
Qed.

Lemma trending_not_not_trending r : trending r = true → not_trending r = false.
Proof. unfold not_trending, trending, F64.geb. apply leb_ltb_false. Qed.

Lemma rsi_low_not_high rsi (lo hi : Z) :
  F64.ltb (F64.of_Z lo) (F64.of_Z hi) = true →
  F64.leb rsi (F64.of_Z lo) = true → F64.geb rsi (F64.of_Z hi) = false.
Proof. intros Hlt Hle. unfold F64.geb. by eapply leb_ltb_leb_false. Qed.

Ltac falsify H := rewrite H; rewrite ?andb_false_r; cbn [andb orb].

Lemma long_short_exclusive r : long_entry r = true → short_entry r = false.
Proof.
  unfold long_entry, short_entry. rewrite !orb_true_iff.
  intros [[Hlong|Hlong]|Hlong].
  - unfold long_breakout in Hlong. rewrite !andb_true_iff in Hlong.
    destruct Hlong as ((((_ & Hmacd) & _) & _) & Htrend).
    apply trending_not_not_trending in Htrend. apply ltb_asym in Hmacd.
    unfold short_breakout, range_short, consolidation_short, F64.gtb in *.
    falsify Hmacd. falsify Htrend. reflexivity.
  - unfold range_long in Hlong. rewrite !andb_true_iff in Hlong.
    destruct Hlong as ((Hflat & Hrsi) & _).
    pose proof (rsi_low_not_high _ rsi_oversold rsi_overbought eq_refl Hrsi) as H70.
    pose proof (rsi_low_not_high _ rsi_oversold (rsi_overbought - 5) eq_refl Hrsi)
      as H65.
    apply not_trending_not_trending in Hflat.
    unfold short_breakout, range_short, consolidation_short.
    falsify Hflat. falsify H70. falsify H65. reflexivity.
  - unfold consolidation_long in Hlong. rewrite !andb_true_iff in Hlong.
    destruct Hlong as ((Hflat & Hrsi) & _).
    pose proof (rsi_low_not_high _ (rsi_oversold + 5) rsi_overbought eq_refl Hrsi)
      as H70.
    pose proof (rsi_low_not_high _ (rsi_oversold + 5) (rsi_overbought - 5) eq_refl Hrsi)
      as H65.
    apply not_trending_not_trending in Hflat.
    unfold short_breakout, range_short, consolidation_short.
    falsify Hflat. falsify H70. falsify H65. reflexivity.
Qed.

(** ** Test tables are well formed *)

Lemma aligned_decide df :
  bool_decide (map_Forall (λ _ c, column_length c = shape0 df) (columns df)) = true →
  aligned df.
Proof. intros H. by apply bool_decide_eq_true_1 in H. Qed.

Lemma uptrend_50_aligned : aligned (Fixtures.uptrend 1).
Proof. apply aligned_decide. vm_compute. reflexivity. Defined.

Lemma uptrend_200_aligned : aligned (Fixtures.uptrend 151).
Proof. apply aligned_decide. vm_compute. reflexivity. Defined.

Lemma uptrend_200_bar_100 :
  iloc (Fixtures.uptrend 151) 100 = Some Fixtures.uptrend_bar.
Proof. vm_compute. reflexivity. Defined.

Lemma uptrend_200_bar_5 :
  iloc (Fixtures.uptrend 151) 5 = Some Fixtures.early_bar.
Proof. vm_compute. reflexivity. Defined.

(** * The claims *)

(** The signal functions on an aligned table that has their input columns,
    whatever its length. *)
Lemma populate_entry_trend_any df :
  aligned df → has_columns df entry_inputs → writable df "enter" →
  ∃ c,
    populate_entry_trend df = Ok (setitem df "enter" c) ∧
    column_length c = shape0 df ∧
    (∀ c0, start_column df "enter" = Some c0 → same_layout c0 c) ∧
    ∀ i r, iloc df i = Some r →
      column_signal c i
      = Some (if bool_decide (shape0 df < startup_candle_count) then 0%Z
              else assigned (long_entry r) (short_entry r)).
Proof.
  intros Hal Hcols Hwrite. case_bool_decide as Hshort.
  - destruct (start_column_writable df "enter" Hwrite) as [c0 Hstart].
    pose proof (start_column_length _ _ _ Hal Hstart) as Hlen.
    exists (column_fill 0 c0).
    split; [by rewrite populate_entry_trend_short, loc_set_all_start, Hstart|].
    split; [by rewrite column_length_fill|]. split.
    + intros c0' Hc0'. assert (c0' = c0) as -> by congruence.
      apply same_layout_fill.
    + intros i r Hrow. apply column_signal_fill.
      rewrite Hlen. by eapply iloc_lt.
  - apply populate_entry_trend_warm; [done|lia|done].
Qed.

(** [populate_exit_trend] on the table [populate_entry_trend] has written
    to. *)
Lemma populate_exit_trend_after_entry df c :
  aligned df → column_length c = shape0 df → has_columns df exit_inputs →
  writable df "exit" →
  ∃ c',
    populate_exit_trend (setitem df "enter" c)
    = Ok (setitem (setitem df "enter" c) "exit" c') ∧
    column_length c' = shape0 df ∧
    (∀ c0, start_column df "exit" = Some c0 → same_layout c0 c') ∧
    ∀ i close slow rsi,
      cell df "close" i = Some close →
      cell df (ema_column ema_slow) i = Some slow →
      cell df "rsi" i = Some rsi →
      column_signal c' i
      = Some (assigned (exit_long close slow rsi) (exit_short close slow rsi)).
Proof.
  intros Hal Hlen Hcols Hwrite.
  destruct (populate_exit_trend_closed (setitem df "enter" c))
    as (c' & Hrun & Hlen' & Hnew & Hsig).
  { by apply aligned_setitem. }
  { by apply has_columns_setitem. }
  { destruct Hwrite as [Hpos|Hsome]; [by left|right].
    simpl. by rewrite lookup_insert_ne. }
  exists c'. split; [done|]. split; [done|]. split.
  { intros c0 Hc0. apply Hnew. by rewrite start_column_setitem_ne. }
  intros i close slow rsi Hclose Hslow Hrsi. apply Hsig.
  - by rewrite cell_setitem_ne.
  - rewrite ema_slow_name in *. by rewrite cell_setitem_ne.
  - by rewrite cell_setitem_ne.
Qed.

(** Entry followed by exit on any aligned table with at least one bar that
    has the input columns: both run, and each bar gets the value of its
    rule, except that entry is 0 throughout when the table is shorter than
    the warm-up. *)
Lemma entry_then_exit df :
  aligned df → has_columns df entry_inputs → 0 < shape0 df →
  ∃ enter exit_,
    populate_entry_trend df = Ok (setitem df "enter" enter) ∧
    populate_exit_trend (setitem df "enter" enter)
    = Ok (setitem (setitem df "enter" enter) "exit" exit_) ∧
    column_length enter = shape0 df ∧ column_length exit_ = shape0 df ∧
    (∀ c0, start_column df "enter" = Some c0 → same_layout c0 enter) ∧
    (∀ c0, start_column df "exit" = Some c0 → same_layout c0 exit_) ∧
    (∀ i r, iloc df i = Some r →
       column_signal enter i
       = Some (if bool_decide (shape0 df < startup_candle_count) then 0%Z
               else assigned (long_entry r) (short_entry r)) ∧
       column_signal exit_ i
       = Some (assigned
                 (exit_long (row_close r) (row_ema_slow r) (row_rsi r))
                 (exit_short (row_close r) (row_ema_slow r) (row_rsi r)))).
Proof.
  intros Hal Hcols Hpos.
  destruct (populate_entry_trend_any df Hal Hcols)
    as (enter & Hentry & Hlen & Hnew & Hsig); [by left|].
  destruct (populate_exit_trend_after_entry df enter Hal Hlen)
    as (exit_ & Hexit & Hlen' & Hnew' & Hrule);
    [by apply has_columns_exit|by left|].
  exists enter, exit_. split; [done|]. split; [done|]. split; [done|].
  split; [done|]. split; [done|]. split; [done|].
  intros i r Hrow. split; [by apply Hsig|].
  apply iloc_cells in Hrow as (Hclose & Hslow & Hrsi). by apply Hrule.
Qed.




(** C2, as stated, fails: a table of 50 bars (fewer than 200) gets exit = -1
    at bar 49, where close is above the slow EMA. *)
Lemma exit_not_suppressed_below_startup :
  ¬ (∀ df df' i,
       shape0 df < startup_candle_count → aligned df →
       populate_exit_trend df = Ok df' → i < shape0 df →
       signal_at df' "exit" i = Some 0%Z).
Proof.
  intros Hclaim.
  assert (∃ d, populate_exit_trend (Fixtures.uptrend 1) = Ok d ∧
               signal_at d "exit" 49 = Some (-1)%Z) as (d & Hrun & Hexit).
  { eexists. split; [vm_compute; reflexivity|]. vm_compute. reflexivity. }
  assert (signal_at d "exit" 49 = Some 0%Z) as Hzero.
  { apply (Hclaim (Fixtures.uptrend 1)); [|apply uptrend_50_aligned|done|].
    - unfold startup_candle_count. simpl. lia.
    - simpl. lia. }
  congruence.
Qed.

(** C2, amended.  On a table with at least one bar and fewer than 200
    [populate_entry_trend] forces entry to 0 at every bar and raises
    nothing; [populate_exit_trend] raises nothing either when the columns it
    reads are present, but it has no warm-up gate: exit follows the ordinary
    rule at every bar. *)
Theorem signals_below_startup df :
  0 < shape0 df → shape0 df < startup_candle_count → aligned df →
  has_columns df exit_inputs →
  ∃ df1 df2,
    populate_entry_trend df = Ok df1 ∧
    populate_exit_trend df1 = Ok df2 ∧
    (∀ i, i < shape0 df → signal_at df2 "enter" i = Some 0%Z) ∧
    (∀ i close slow rsi,
       cell df "close" i = Some close →
       cell df (ema_column ema_slow) i = Some slow →
       cell df "rsi" i = Some rsi →
       signal_at df2 "exit" i
       = Some (assigned (exit_long close slow rsi) (exit_short close slow rsi))).
Proof.
  intros Hpos Hshort Hal Hcols.
  destruct (start_column_writable df "enter") as [c0 Hstart]; [by left|].
  pose proof (start_column_length _ _ _ Hal Hstart) as Hlen.
  destruct (populate_exit_trend_after_entry df (column_fill 0 c0) Hal)
    as (c' & Hrun & _ & _ & Hsig);
    [by rewrite column_length_fill|done|by left|].
  eexists _, _.
  split; [by rewrite populate_entry_trend_short, loc_set_all_start, Hstart|].
  split; [exact Hrun|]. split.
  - intros i Hi. rewrite signal_at_setitem_ne by discriminate.
    rewrite signal_at_setitem. apply column_signal_fill. lia.
  - intros i close slow rsi Hclose Hslow Hrsi.
    rewrite signal_at_setitem. by apply Hsig.
Qed.

Lemma exit_columns_uptrend_50 : has_columns (Fixtures.uptrend 1) exit_inputs.
Proof. repeat constructor; vm_compute; eauto. Defined.

Lemma signals_below_startup_witness :
  ∃ df1 df2,
    populate_entry_trend (Fixtures.uptrend 1) = Ok df1 ∧
    populate_exit_trend df1 = Ok df2 ∧
    (∀ i, i < 50 → signal_at df2 "enter" i = Some 0%Z) ∧
    (∀ i close slow rsi,
       cell (Fixtures.uptrend 1) "close" i = Some close →
       cell (Fixtures.uptrend 1) (ema_column ema_slow) i = Some slow →
       cell (Fixtures.uptrend 1) "rsi" i = Some rsi →
       signal_at df2 "exit" i
       = Some (assigned (exit_long close slow rsi) (exit_short close slow rsi))).
Proof.
  apply (signals_below_startup (Fixtures.uptrend 1)).
  - simpl. lia.
  - unfold startup_candle_count. simpl. lia.
  - apply uptrend_50_aligned.
  - apply exit_columns_uptrend_50.
Defined.

(** C3, as stated, fails: in a table of 200 bars, bar 100 lies within the
    first 200 bars and gets entry = +1 and exit = -1. *)
Lemma early_bars_not_forced_to_zero :
  ¬ (∀ df df1 df2 i,
       aligned df →
       populate_entry_trend df = Ok df1 → populate_exit_trend df1 = Ok df2 →
       i < startup_candle_count → i < shape0 df →
       signal_at df2 "enter" i = Some 0%Z ∧ signal_at df2 "exit" i = Some 0%Z).
Proof.
  intros Hclaim.
  assert (∃ d1 d2,
            populate_entry_trend (Fixtures.uptrend 151) = Ok d1 ∧
            populate_exit_trend d1 = Ok d2 ∧
            signal_at d2 "enter" 100 = Some 1%Z ∧
            signal_at d2 "exit" 100 = Some (-1)%Z)
    as (d1 & d2 & Hentry & Hexit & Hone & _).
  { eexists _, _. split; [vm_compute; reflexivity|].
    split; [vm_compute; reflexivity|]. split; vm_compute; reflexivity. }
  destruct (Hclaim (Fixtures.uptrend 151) d1 d2 100) as [Hzero _];
    [apply uptrend_200_aligned|done|done| |simpl; lia|congruence].
  unfold startup_candle_count. lia.
Qed.

(** C3, amended.  In a table of any length, a bar at which ADX, RSI and the
    slow EMA are not yet available (NaN) has entry = 0 and exit = 0 after the
    two signal functions have run.  Nothing is forced by the position of the
    bar: once the table has 200 bars, a bar among the first 200 whose
    indicators are available gets the signals of the rules. *)
Theorem signals_zero_before_indicators df i r :
  aligned df → iloc df i = Some r →
  row_adx r = F64.nan → row_rsi r = F64.nan → row_ema_slow r = F64.nan →
  ∃ df1 df2,
    populate_entry_trend df = Ok df1 ∧
    populate_exit_trend df1 = Ok df2 ∧
    signal_at df2 "enter" i = Some 0%Z ∧
    signal_at df2 "exit" i = Some 0%Z.
Proof.
  intros Hal Hrow Hadx Hrsi Hslow.
  assert (0 < shape0 df) as Hpos by (pose proof (iloc_lt _ _ _ Hal Hrow); lia).
  destruct (entry_then_exit df Hal (iloc_has_columns _ _ _ Hrow) Hpos)
    as (enter & exit_ & Hentry & Hexit & _ & _ & _ & _ & Hsig).
  destruct (Hsig i r Hrow) as [Henter Hexit_].
  eexists _, _. split; [exact Hentry|]. split; [exact Hexit|]. split.
  - rewrite signal_at_setitem_ne by discriminate. rewrite signal_at_setitem.
    rewrite Henter. destruct (no_entry_without_adx r Hadx) as [-> ->].
    by case_bool_decide.
  - rewrite signal_at_setitem, Hexit_, Hrsi, Hslow.
    by destruct (no_exit_without_indicators (row_close r)) as [-> ->].
Qed.

Lemma signals_zero_before_indicators_witness :
  ∃ df1 df2,
    populate_entry_trend (Fixtures.uptrend 151) = Ok df1 ∧
    populate_exit_trend df1 = Ok df2 ∧
    signal_at df2 "enter" 5 = Some 0%Z ∧
    signal_at df2 "exit" 5 = Some 0%Z.
Proof.
  apply (signals_zero_before_indicators (Fixtures.uptrend 151) 5 Fixtures.early_bar).
  - apply uptrend_200_aligned.
  - apply uptrend_200_bar_5.
  - reflexivity.
  - reflexivity.
  - reflexivity.
Defined.

Lemma assigned_cases (long short : bool) :
  (assigned long short = (-1)%Z ↔ short = true) ∧
  (assigned long short = 1%Z ↔ long = true ∧ short = false) ∧
  (assigned long short = 0%Z ↔ long = false ∧ short = false).
Proof. destruct long, short; simpl; intuition congruence. Qed.

(** C4.  At every bar, with exit_short = (close > EMA-slow or RSI <= 30) and
    exit_long = (close < EMA-slow or RSI >= 70): exit is -1 exactly when
    exit_short holds; exit is +1 exactly when exit_long holds and the later
    short assignment does not overwrite it; when both hold exit is -1; and
    exit is 0 exactly when neither holds. *)
Theorem exit_signal_rule df i close slow rsi :
  aligned df →
  cell df "close" i = Some close →
  cell df (ema_column ema_slow) i = Some slow →
  cell df "rsi" i = Some rsi →
  ∃ df' v,
    populate_exit_trend df = Ok df' ∧
    signal_at df' "exit" i = Some v ∧
    (v = (-1)%Z ↔ exit_short close slow rsi = true) ∧
    (v = 1%Z ↔ exit_long close slow rsi = true ∧ exit_short close slow rsi = false) ∧
    (exit_long close slow rsi = true → exit_short close slow rsi = true →
     v = (-1)%Z) ∧
    (v = 0%Z ↔ exit_long close slow rsi = false ∧ exit_short close slow rsi = false).
Proof.
  intros Hal Hclose Hslow Hrsi.
  destruct (populate_exit_trend_closed df Hal) as (c & Hrun & _ & _ & Hsig).
  { unfold has_columns, exit_inputs.
    repeat constructor; eapply cell_is_Some; eassumption. }
  { left. pose proof (cell_lt _ _ _ _ Hal Hclose). lia. }
  eexists _, _. split; [exact Hrun|].
  split; [rewrite signal_at_setitem; by apply Hsig|].
  destruct (assigned_cases (exit_long close slow rsi) (exit_short close slow rsi))
    as (Hshort & Hlong & Hnone).
  split; [done|]. split; [done|]. split; [|done].
  intros _ Hs. by apply Hshort.
Qed.

Lemma exit_signal_rule_witness :
  ∃ df' v,
    populate_exit_trend (Fixtures.uptrend 1) = Ok df' ∧
    signal_at df' "exit" 49 = Some v ∧
    (v = (-1)%Z ↔ exit_short (F64.of_Z 102) (F64.of_Z 90) (F64.of_Z 55) = true) ∧
    (v = 1%Z ↔ exit_long (F64.of_Z 102) (F64.of_Z 90) (F64.of_Z 55) = true ∧
               exit_short (F64.of_Z 102) (F64.of_Z 90) (F64.of_Z 55) = false) ∧
    (exit_long (F64.of_Z 102) (F64.of_Z 90) (F64.of_Z 55) = true →
     exit_short (F64.of_Z 102) (F64.of_Z 90) (F64.of_Z 55) = true → v = (-1)%Z) ∧
    (v = 0%Z ↔ exit_long (F64.of_Z 102) (F64.of_Z 90) (F64.of_Z 55) = false ∧
               exit_short (F64.of_Z 102) (F64.of_Z 90) (F64.of_Z 55) = false).
Proof.
  apply (exit_signal_rule (Fixtures.uptrend 1) 49).
  - apply uptrend_50_aligned.
  - vm_compute. reflexivity.
  - vm_compute. reflexivity.
  - vm_compute. reflexivity.
Defined.

(** C5.  In a table of at least 200 bars, at every bar: if the long breakout
    holds (close > rolling high + ATR * 0.7, macd > macd_signal,
    close > EMA-slow, volume >= volume average * 0.8, ADX >= 25) and no short
    group holds, entry is +1, and so for the other two long groups; if a
    short group holds and no long group does, entry is -1; if no group holds,
    entry is 0. *)
Theorem entry_signal_rule df i r :
  aligned df → startup_candle_count ≤ shape0 df → iloc df i = Some r →
  ∃ df' v,
    populate_entry_trend df = Ok df' ∧
    signal_at df' "enter" i = Some v ∧
    (long_breakout r = true → short_entry r = false → v = 1%Z) ∧
    (long_entry r = true → short_entry r = false → v = 1%Z) ∧
    (short_entry r = true → long_entry r = false → v = (-1)%Z) ∧
    (long_entry r = false → short_entry r = false → v = 0%Z).
Proof.
  intros Hal Hwarm Hrow.
  destruct (populate_entry_trend_warm df Hal Hwarm (iloc_has_columns _ _ _ Hrow))
    as (c & Hrun & _ & _ & Hsig).
  eexists _, _. split; [exact Hrun|].
  split; [rewrite signal_at_setitem; by apply Hsig|].
  repeat split.
  - intros Hlong ->. unfold long_entry. by rewrite Hlong.
  - by intros -> ->.
  - by intros -> ->.
  - by intros -> ->.
Qed.

Lemma entry_signal_rule_witness :
  ∃ df' v,
    populate_entry_trend (Fixtures.uptrend 151) = Ok df' ∧
    signal_at df' "enter" 100 = Some v ∧
    (long_breakout Fixtures.uptrend_bar = true →
     short_entry Fixtures.uptrend_bar = false → v = 1%Z) ∧
    (long_entry Fixtures.uptrend_bar = true →
     short_entry Fixtures.uptrend_bar = false → v = 1%Z) ∧
    (short_entry Fixtures.uptrend_bar = true →
     long_entry Fixtures.uptrend_bar = false → v = (-1)%Z) ∧
    (long_entry Fixtures.uptrend_bar = false →
     short_entry Fixtures.uptrend_bar = false → v = 0%Z).
Proof.
  apply (entry_signal_rule (Fixtures.uptrend 151) 100).
  - apply uptrend_200_aligned.
  - unfold startup_candle_count. simpl. lia.
  - apply uptrend_200_bar_100.
Defined.





(** C7.  At every bar the long groups and the short groups exclude each
    other, for all cell values (a comparison with NaN is false, so undefined
    cells only remove groups): a bar at which a long group holds has no
    short group and keeps the +1 written by the first assignment. *)
Theorem long_and_short_entries_disjoint df i r :
  aligned df → startup_candle_count ≤ shape0 df → iloc df i = Some r →
  long_entry r && short_entry r = false ∧
  ∃ df',
    populate_entry_trend df = Ok df' ∧
    (long_entry r = true → signal_at df' "enter" i = Some 1%Z).
Proof.
  intros Hal Hwarm Hrow. split.
  - destruct (long_entry r) eqn:Hlong; [|done].
    by rewrite (long_short_exclusive r Hlong).
  - destruct (populate_entry_trend_warm df Hal Hwarm (iloc_has_columns _ _ _ Hrow))
      as (c & Hrun & _ & _ & Hsig).
    eexists. split; [exact Hrun|]. intros Hlong.
    rewrite signal_at_setitem, (Hsig i r Hrow), Hlong.
    by rewrite (long_short_exclusive r Hlong).
Qed.

Lemma long_and_short_entries_disjoint_witness :
  long_entry Fixtures.uptrend_bar && short_entry Fixtures.uptrend_bar = false ∧
  ∃ df',
    populate_entry_trend (Fixtures.uptrend 151) = Ok df' ∧
    (long_entry Fixtures.uptrend_bar = true →
     signal_at df' "enter" 100 = Some 1%Z).
Proof.
  apply (long_and_short_entries_disjoint (Fixtures.uptrend 151) 100).
  - apply uptrend_200_aligned.
  - unfold startup_candle_count. simpl. lia.
  - apply uptrend_200_bar_100.
Defined.

(** ** The indicator table *)

Lemma absent_setitem_ne df k c names :
  k ∉ names → absent (setitem df k c) names = absent df names.
Proof.
  unfold absent. induction names as [|name names IH]; [done|].
  rewrite not_elem_of_cons. intros [Hne Hk]. cbn [List.filter].
  rewrite IH by done. cbn [setitem columns].
  by rewrite lookup_insert_ne.
Qed.

Lemma talib_inputs_setitem_ne df k c names :
  k ∉ names → talib_inputs (setitem df k c) names = talib_inputs df names.
Proof. intros Hk. unfold talib_inputs. by rewrite absent_setitem_ne. Qed.

Lemma absent_nil df names : absent df names = [] ↔ has_columns df names.
Proof.
  unfold absent, has_columns. induction names as [|name names IH]; simpl.
  - split; [constructor|done].
  - rewrite Forall_cons. case_bool_decide as Hname.
    + split; [done|]. intros [[c Hc] _]. congruence.
    + rewrite IH. split; [|by intros [_ ?]].
      intros Hrest. split; [|done].
      destruct (columns df !! name); [eauto|done].
Qed.

Lemma talib_inputs_Ok df names :
  talib_inputs df names = Ok () ↔ has_columns df names.
Proof.
  rewrite <- absent_nil. unfold talib_inputs.
  destruct (absent df names); split; done.
Qed.

Ltac other_name :=
  rewrite !not_elem_of_cons; repeat split; try discriminate; apply not_elem_of_nil.

Ltac run_reads :=
  repeat first
    [ progress unfold mret, result_ret
    | rewrite bind_Ok
    | rewrite getitem_setitem_eq
    | rewrite getitem_setitem_ne by discriminate
    | rewrite talib_inputs_setitem_ne by other_name
    | match goal with
      | H : getitem ?d ?n = Ok _ |- context [getitem ?d ?n] => rewrite H
      | H : talib_inputs ?d ?n = Ok _ |- context [talib_inputs ?d ?n] => rewrite H
      end ].

(** The twelve writes of [populate_indicators] in one step: the two checks
    TA-Lib makes (for the routines on close, then for the routines on high,
    low and close), the four reads, and the columns written. *)
Lemma populate_indicators_closed `{Indicators} df :
  populate_indicators df
  = (talib_inputs df ["close"];;
     talib_inputs df ["high"; "low"; "close"];;
     close ← getitem df "close";
     high ← getitem df "high";
     low ← getitem df "low";
     volume ← getitem df "volume";
     Ok (write_columns df (indicator_columns close high low volume))).
Proof.
  unfold populate_indicators, on_close, on_high_low_close, indicator_columns.
  rewrite ema_slow_name, ema_fast_name. cbv zeta.
  destruct (talib_inputs df ["close"]) as [[]|e] eqn:Hin; [|reflexivity].
  pose proof Hin as Hclose. apply talib_inputs_Ok in Hclose.
  apply Forall_cons in Hclose as [Hclose _].
  apply getitem_is_Some in Hclose as [close Hclose].
  run_reads.
  destruct (talib_inputs df ["high"; "low"; "close"]) as [[]|e] eqn:Hin';
    [|reflexivity].
  pose proof Hin' as Hhigh. apply talib_inputs_Ok in Hhigh.
  apply Forall_cons in Hhigh as [Hhigh Hlow].
  apply Forall_cons in Hlow as [Hlow _].
  apply getitem_is_Some in Hhigh as [high Hhigh].
  apply getitem_is_Some in Hlow as [low Hlow].
  run_reads.
  destruct (getitem df "volume") as [volume|e] eqn:Hvolume; [|reflexivity].
  run_reads.
  reflexivity.
Qed.

Lemma price_columns_present df :
  has_columns df price_inputs →
  ∃ close high low volume,
    getitem df "close" = Ok close ∧ getitem df "high" = Ok high ∧
    getitem df "low" = Ok low ∧ getitem df "volume" = Ok volume.
Proof.
  unfold has_columns, price_inputs. intros Hcols. columns_present Hcols.
  eauto 10.
Qed.

Lemma populate_indicators_run `{Indicators} df :
  has_columns df price_inputs →
  ∃ close high low volume,
    getitem df "close" = Ok close ∧ getitem df "high" = Ok high ∧
    getitem df "low" = Ok low ∧ getitem df "volume" = Ok volume ∧
    populate_indicators df
    = Ok (write_columns df (indicator_columns close high low volume)).
Proof.
  intros Hcols.
  destruct (price_columns_present df Hcols)
    as (close & high & low & volume & Hc & Hh & Hl & Hv).
  exists close, high, low, volume. repeat (split; [done|]).
  rewrite populate_indicators_closed.
  unfold has_columns, price_inputs in Hcols.
  apply Forall_cons in Hcols as [Hclose Hcols].
  apply Forall_cons in Hcols as [Hhigh Hcols].
  apply Forall_cons in Hcols as [Hlow _].
  rewrite (proj2 (talib_inputs_Ok df ["close"])) by by repeat constructor.
  rewrite (proj2 (talib_inputs_Ok df ["high"; "low"; "close"]))
    by by repeat constructor.
  by rewrite !bind_Ok, Hc, Hh, Hl, Hv.
Qed.

Lemma write_columns_lookup_ne df cols name :
  name ∉ cols.*1 →
  columns (write_columns df cols) !! name = columns df !! name.
Proof.
  unfold write_columns. revert df.
  induction cols as [|[k c] cols IH]; intros df Hname; [done|].
  rewrite fmap_cons, not_elem_of_cons in Hname. destruct Hname as [Hk Hname].
  simpl. rewrite IH by done. simpl. by rewrite lookup_insert_ne.
Qed.

Lemma shape0_write_columns df cols : shape0 (write_columns df cols) = shape0 df.
Proof.
  unfold write_columns. revert df. induction cols as [|kc cols IH]; intros df; [done|].
  simpl. by rewrite IH.
Qed.

Lemma aligned_write_columns df cols :
  aligned df → Forall (λ kc, length kc.2 = shape0 df) cols →
  aligned (write_columns df cols).
Proof.
  unfold write_columns. revert df.
  induction cols as [|[k c] cols IH]; intros df Hal Hlen; [done|].
  apply Forall_cons in Hlen as [Hc Hlen]. simpl. apply IH; [|done].
  by apply aligned_setitem.
Qed.

Lemma indicator_columns_lengths `{I : Indicators} close high low volume n :
  length_preserving I →
  length close = n → length high = n → length low = n → length volume = n →
  Forall (λ kc, length kc.2 = n) (indicator_columns close high low volume).
Proof.
  intros (Hema & Hrsi & Hadx & Hatr & Hmean & Hmax & Hmin) Hc Hh Hl Hv.
  unfold indicator_columns, ta_MACD, Series.sub. cbv zeta.
  cbn [macd macdsignal macdhist].
  repeat constructor; cbn [snd];
    rewrite ?Hema, ?Hrsi, ?Hmean, ?Hmax, ?Hmin, ?length_zip_with, ?Hema,
      ?length_zip_with, ?Hema;
    try lia.
  - rewrite Hadx; lia.
  - rewrite Hatr; lia.
Qed.

(** The routines used to run the hooks on numbers return one value per
    bar. *)
Lemma length_ewm_from a prev xs : length (Doubles.ewm_from a prev xs) = length xs.
Proof. revert prev. induction xs as [|x xs IH]; intros prev; simpl; [done|]. by rewrite IH. Qed.

Lemma length_ewm n xs : length (Doubles.ewm n xs) = length xs.
Proof. destruct xs as [|x xs]; simpl; [done|]. by rewrite length_ewm_from. Qed.

Lemma length_rolling agg n xs : length (Doubles.rolling agg n xs) = length xs.
Proof. unfold Doubles.rolling. by rewrite length_fmap, length_seq. Qed.

Lemma quiet_market_length_preserving : length_preserving Doubles.quiet_market.
Proof.
  unfold length_preserving, Doubles.quiet_market; simpl.
  repeat split; intros;
    first [apply length_ewm | apply length_rolling | apply length_replicate].
Defined.

Lemma ramp_3_aligned : aligned (Fixtures.ramp 3).
Proof. apply aligned_decide. vm_compute. reflexivity. Defined.

Lemma ramp_3_prices : has_columns (Fixtures.ramp 3) price_inputs.
Proof. repeat constructor; vm_compute; eauto. Defined.

Lemma ramp_200_aligned : aligned (Fixtures.ramp 200).
Proof. apply aligned_decide. vm_compute. reflexivity. Defined.

Lemma ramp_200_prices : has_columns (Fixtures.ramp 200) price_inputs.
Proof. repeat constructor; vm_compute; eauto. Defined.

(** C8.  With MACD as the spec gives it and routines that return one value
    per bar, [populate_indicators] stores under [macd] the difference of the
    12-bar and the 26-bar EMA of close, under [macd_signal] the 9-bar EMA of
    that line, and under [macd_hist] the histogram.  Each of the three
    columns has one cell per bar, and at every bar the stored histogram is
    the binary64 difference of the stored macd line and the stored signal
    line. *)
Theorem macd_hist_is_macd_minus_signal `{I : Indicators} df :
  length_preserving I → aligned df → has_columns df price_inputs →
  ∃ df' close line signal hist,
    populate_indicators df = Ok df' ∧
    getitem df "close" = Ok close ∧
    columns df' !! "macd" = Some (FloatCol line) ∧
    columns df' !! "macd_signal" = Some (FloatCol signal) ∧
    columns df' !! "macd_hist" = Some (FloatCol hist) ∧
    line = Series.sub (ta_EMA macd_fast close) (ta_EMA macd_slow close) ∧
    signal = ta_EMA macd_signal line ∧
    length line = shape0 df ∧ length signal = shape0 df ∧
    length hist = shape0 df ∧
    ∀ i, i < shape0 df →
      ∃ a b,
        cell df' "macd" i = Some a ∧
        cell df' "macd_signal" i = Some b ∧
        cell df' "macd_hist" i = Some (F64.sub a b).
Proof.
  intros Hlib Hal Hcols.
  destruct (populate_indicators_run df Hcols)
    as (close & high & low & volume & Hc & Hh & Hl & Hv & Hrun).
  pose proof (getitem_length _ _ _ Hal Hc) as Hlen.
  destruct Hlib as (Hema & _).
  set (line := Series.sub (ta_EMA macd_fast close) (ta_EMA macd_slow close)).
  set (signal := ta_EMA macd_signal line).
  assert (length line = shape0 df) as Hline.
  { unfold line, Series.sub. rewrite length_zip_with, !Hema. lia. }
  assert (length signal = shape0 df) as Hsignal.
  { unfold signal. by rewrite Hema. }
  assert (length (Series.sub line signal) = shape0 df) as Hhist.
  { unfold Series.sub at 1. rewrite length_zip_with. lia. }
  exists (write_columns df (indicator_columns close high low volume)),
    close, line, signal, (Series.sub line signal).
  split; [done|]. split; [done|].
  assert (∀ name xs,
            columns (write_columns df (indicator_columns close high low volume))
              !! name = Some (FloatCol xs) →
            ∀ i, cell (write_columns df (indicator_columns close high low volume))
                   name i = xs !! i) as Hcell.
  { intros name xs Hname i. unfold cell, getitem. by rewrite Hname. }
  assert (columns (write_columns df (indicator_columns close high low volume))
            !! "macd" = Some (FloatCol line)) as Hm1.
  { unfold write_columns, indicator_columns. rewrite ema_slow_name, ema_fast_name.
    cbn [foldl setitem columns fst snd].
    rewrite !lookup_insert_ne by discriminate. apply lookup_insert_eq. }
  assert (columns (write_columns df (indicator_columns close high low volume))
            !! "macd_signal" = Some (FloatCol signal)) as Hm2.
  { unfold write_columns, indicator_columns. rewrite ema_slow_name, ema_fast_name.
    cbn [foldl setitem columns fst snd].
    rewrite !lookup_insert_ne by discriminate. apply lookup_insert_eq. }
  assert (columns (write_columns df (indicator_columns close high low volume))
            !! "macd_hist" = Some (FloatCol (Series.sub line signal))) as Hm3.
  { unfold write_columns, indicator_columns. rewrite ema_slow_name, ema_fast_name.
    cbn [foldl setitem columns fst snd].
    rewrite !lookup_insert_ne by discriminate. apply lookup_insert_eq. }
  repeat (split; [done|]).
  intros i Hi.
  destruct (lookup_lt_is_Some_2 line i) as [a Ha]; [lia|].
  destruct (lookup_lt_is_Some_2 signal i) as [b Hb]; [lia|].
  exists a, b.
  rewrite (Hcell _ _ Hm1), (Hcell _ _ Hm2), (Hcell _ _ Hm3).
  split; [done|]. split; [done|].
  unfold Series.sub at 1. by rewrite lookup_zip_with, Ha, Hb.
Qed.

Lemma macd_hist_is_macd_minus_signal_witness :
  ∃ df' close line signal hist,
    populate_indicators (H := Doubles.quiet_market) (Fixtures.ramp 3) = Ok df' ∧
    getitem (Fixtures.ramp 3) "close" = Ok close ∧
    columns df' !! "macd" = Some (FloatCol line) ∧
    columns df' !! "macd_signal" = Some (FloatCol signal) ∧
    columns df' !! "macd_hist" = Some (FloatCol hist) ∧
    line = Series.sub (Doubles.ewm macd_fast close) (Doubles.ewm macd_slow close) ∧
    signal = Doubles.ewm macd_signal line ∧
    length line = 3 ∧ length signal = 3 ∧ length hist = 3 ∧
    ∀ i, i < 3 →
      ∃ a b,
        cell df' "macd" i = Some a ∧
        cell df' "macd_signal" i = Some b ∧
        cell df' "macd_hist" i = Some (F64.sub a b).
Proof.
  apply (macd_hist_is_macd_minus_signal (I := Doubles.quiet_market) (Fixtures.ramp 3)).
  - apply quiet_market_length_preserving.
  - apply ramp_3_aligned.
  - apply ramp_3_prices.
Defined.

(** On three bars of rising prices, with the EMA as the recurrence on the
    closes: at the last bar the macd line and the signal line are two
    different numbers, and the histogram is the number their difference
    rounds to. *)
Example macd_hist_on_rising_prices :
  ∃ df' a b,
    populate_indicators (H := Doubles.quiet_market) (Fixtures.ramp 3) = Ok df' ∧
    cell df' "macd" 2 = Some a ∧ cell df' "macd_signal" 2 = Some b ∧
    cell df' "macd_hist" 2 = Some (F64.sub a b) ∧
    F64.gtb a b = true ∧ F64.gtb (F64.sub a b) (F64.of_Z 0) = true.
Proof.
  eexists _, _, _. split; [vm_compute; reflexivity|].
  split; [vm_compute; reflexivity|]. split; [vm_compute; reflexivity|].
  split; [vm_compute; reflexivity|]. split; vm_compute; reflexivity.
Qed.

(** ** Running the hooks again on the table they have written to *)

Lemma write_columns_id df cols :
  Forall (λ kc, columns df !! kc.1 = Some (FloatCol kc.2)) cols →
  write_columns df cols = df.
Proof.
  unfold write_columns. induction 1 as [|kc cols Hkc _ IH]; [done|].
  simpl. by rewrite setitem_id.
Qed.

Lemma loc_set_setitem_ne df k c mask name v :
  k ≠ name →
  loc_set (setitem df k c) mask name v
  = loc_set df mask name v ≫= λ d, Ok (setitem d k c).
Proof.
  intros Hne. unfold loc_set. cbn [shape0 columns setitem].
  rewrite lookup_insert_ne by done.
  case_bool_decide; [|reflexivity].
  destruct (columns df !! name) as [[xs|xs]|]; rewrite bind_Ok;
    f_equal; apply (setitem_commute df k c name); done.
Qed.

Lemma assign_signals_setitem_ne df k c name long short :
  k ≠ name →
  assign_signals (setitem df k c) name long short
  = assign_signals df name long short ≫= λ d, Ok (setitem d k c).
Proof.
  intros Hne. unfold assign_signals. rewrite loc_set_setitem_ne by done.
  destruct (loc_set df long name 1) as [d|e]; [|reflexivity].
  rewrite !bind_Ok. by apply loc_set_setitem_ne.
Qed.

Lemma assign_signals_Ok df name long short c df' :
  columns df !! name = Some c →
  assign_signals df name long short = Ok df' →
  length long = shape0 df ∧ length short = shape0 df ∧
  df' = setitem df name (column_where short (-1) (column_where long 1 c)).
Proof.
  intros Hc. unfold assign_signals, loc_set at 2.
  case_bool_decide as Hlong; [|discriminate]. rewrite Hc.
  assert (∀ d, Ok d ≫= (λ d, loc_set d short name (-1)) = Ok df' →
            d = setitem df name (column_where long 1 c) →
            length long = shape0 df ∧ length short = shape0 df ∧
            df' = setitem df name
                    (column_where short (-1) (column_where long 1 c))) as Hnext.
  { intros d Hrun ->. rewrite bind_Ok in Hrun. unfold loc_set in Hrun.
    case_bool_decide as Hshort; [|discriminate].
    cbn [setitem columns] in Hrun. rewrite lookup_insert_eq in Hrun.
    split; [done|]. split; [done|].
    destruct c as [xs|xs]; simpl in Hrun; injection Hrun as <-;
      by rewrite setitem_setitem. }
  destruct c as [xs|xs]; intros Hrun; by eapply Hnext.
Qed.

Ltac case_reads :=
  repeat match goal with
    | |- context [getitem ?d ?n ≫= _] =>
        destruct (getitem d n); [rewrite ?bind_Ok|try reflexivity; try discriminate]
    end.

Ltac not_an_input Hk :=
  rewrite ?ema_slow_name, ?ema_fast_name in Hk;
  rewrite !not_elem_of_cons in Hk;
  repeat match type of Hk with _ ∧ _ => destruct Hk as [? Hk] end.

(** The signal functions read only the columns of their conditions: a
    column of any other name is carried through. *)
Lemma populate_entry_trend_frame_any df k c :
  k ∉ "enter" :: entry_inputs →
  populate_entry_trend (setitem df k c)
  = populate_entry_trend df ≫= λ d, Ok (setitem d k c).
Proof.
  intros Hk. unfold entry_inputs in Hk. not_an_input Hk.
  unfold populate_entry_trend.
  rewrite loc_set_all_setitem_ne by done.
  destruct (loc_set_all df "enter" 0) as [df0|e]; [|reflexivity].
  rewrite !bind_Ok.
  change (shape0 (setitem df0 k c)) with (shape0 df0).
  case_bool_decide; [reflexivity|].
  rewrite ema_slow_name, ema_fast_name.
  rewrite !getitem_setitem_ne by done.
  case_reads.
  by apply assign_signals_setitem_ne.
Qed.

Lemma populate_exit_trend_frame_any df k c :
  k ∉ "exit" :: exit_inputs →
  populate_exit_trend (setitem df k c)
  = populate_exit_trend df ≫= λ d, Ok (setitem d k c).
Proof.
  intros Hk. unfold exit_inputs in Hk. not_an_input Hk.
  unfold populate_exit_trend.
  rewrite loc_set_all_setitem_ne by done.
  destruct (loc_set_all df "exit" 0) as [df0|e]; [|reflexivity].
  rewrite !bind_Ok. rewrite ema_slow_name.
  rewrite !getitem_setitem_ne by done.
  case_reads.
  by apply assign_signals_setitem_ne.
Qed.

Lemma populate_entry_trend_frame df c :
  populate_entry_trend (setitem df "exit" c)
  = populate_entry_trend df ≫= λ d, Ok (setitem d "exit" c).
Proof.
  apply populate_entry_trend_frame_any.
  unfold entry_inputs. rewrite ema_slow_name, ema_fast_name. other_name.
Qed.



Ltac case_reads_in_premise :=
  repeat match goal with
    | |- context [getitem ?d ?n ≫= _] =>
        let H := fresh "Hread" in
        destruct (getitem d n) eqn:H; [rewrite ?bind_Ok|discriminate]
    end.

(** Each signal function returns the table it is given with its own signal
    column replaced, and returns that table unchanged when run on it
    again. *)
Lemma populate_entry_trend_again df df' :
  populate_entry_trend df = Ok df' →
  (∃ c, df' = setitem df "enter" c) ∧ populate_entry_trend df' = Ok df'.
Proof.
  unfold populate_entry_trend at 1. rewrite loc_set_all_start.
  destruct (start_column df "enter") as [c0|]; [|discriminate].
  rewrite bind_Ok.
  change (shape0 (setitem df "enter" (column_fill 0 c0))) with (shape0 df).
  case_bool_decide as Hshort.
  - intros [= <-]. split; [eauto|].
    rewrite populate_entry_trend_short by done.
    by rewrite loc_set_all_setitem, column_fill_fill.
  - rewrite ema_slow_name, ema_fast_name.
    rewrite !getitem_setitem_ne by discriminate.
    case_reads_in_premise. intros Hassign.
    apply (assign_signals_Ok _ _ _ _ (column_fill 0 c0)) in Hassign
      as (Hlong & Hshort' & ->); [|simpl; apply lookup_insert_eq].
    rewrite setitem_setitem. split; [eauto|].
    unfold populate_entry_trend.
    rewrite loc_set_all_setitem, bind_Ok.
    match goal with
    | |- context [bool_decide (shape0 (setitem df "enter" ?c) < _)] =>
        change (shape0 (setitem df "enter" c)) with (shape0 df)
    end.
    rewrite bool_decide_eq_false_2 by done.
    rewrite ema_slow_name, ema_fast_name.
    rewrite !getitem_setitem_ne by discriminate.
    repeat match goal with
      | H : getitem df ?n = Ok _ |- context [getitem df ?n] => rewrite H, bind_Ok
      end.
    match goal with
    | |- assign_signals (setitem df "enter" ?z) _ _ _ = _ =>
        rewrite (assign_signals_present _ _ _ _ z);
          [|done|done|simpl; apply lookup_insert_eq]
    end.
    by rewrite setitem_setitem, column_where_again.
Qed.

Lemma populate_exit_trend_again df df' :
  populate_exit_trend df = Ok df' →
  (∃ c, df' = setitem df "exit" c) ∧ populate_exit_trend df' = Ok df'.
Proof.
  unfold populate_exit_trend at 1. rewrite loc_set_all_start.
  destruct (start_column df "exit") as [c0|]; [|discriminate].
  rewrite bind_Ok. rewrite ema_slow_name.
  rewrite !getitem_setitem_ne by discriminate.
  case_reads_in_premise. intros Hassign.
  apply (assign_signals_Ok _ _ _ _ (column_fill 0 c0)) in Hassign
    as (Hlong & Hshort' & ->); [|simpl; apply lookup_insert_eq].
  rewrite setitem_setitem. split; [eauto|].
  unfold populate_exit_trend.
  rewrite loc_set_all_setitem, bind_Ok. rewrite ema_slow_name.
  rewrite !getitem_setitem_ne by discriminate.
  repeat match goal with
    | H : getitem df ?n = Ok _ |- context [getitem df ?n] => rewrite H, bind_Ok
    end.
  match goal with
  | |- assign_signals (setitem df "exit" ?z) _ _ _ = _ =>
      rewrite (assign_signals_present _ _ _ _ z);
        [|done|done|simpl; apply lookup_insert_eq]
  end.
  by rewrite setitem_setitem, column_where_again.
Qed.

Lemma populate_entry_trend_shape df df' :
  populate_entry_trend df = Ok df' → ∃ c, df' = setitem df "enter" c.
Proof. intros Hrun. by apply populate_entry_trend_again in Hrun as [? _]. Qed.

Lemma populate_exit_trend_shape df df' :
  populate_exit_trend df = Ok df' → ∃ c, df' = setitem df "exit" c.
Proof. intros Hrun. by apply populate_exit_trend_again in Hrun as [? _]. Qed.

Lemma populate_indicators_Ok `{Indicators} df df' :
  populate_indicators df = Ok df' →
  ∃ close high low volume,
    getitem df "close" = Ok close ∧ getitem df "high" = Ok high ∧
    getitem df "low" = Ok low ∧ getitem df "volume" = Ok volume ∧
    df' = write_columns df (indicator_columns close high low volume).
Proof.
  rewrite populate_indicators_closed.
  destruct (talib_inputs df ["close"]) as [[]|]; [|discriminate].
  rewrite bind_Ok.
  destruct (talib_inputs df ["high"; "low"; "close"]) as [[]|]; [|discriminate].
  rewrite bind_Ok.
  destruct (getitem df "close") as [close|]; [|discriminate]. rewrite bind_Ok.
  destruct (getitem df "high") as [high|]; [|discriminate]. rewrite bind_Ok.
  destruct (getitem df "low") as [low|]; [|discriminate]. rewrite bind_Ok.
  destruct (getitem df "volume") as [volume|]; [|discriminate]. rewrite bind_Ok.
  intros [= <-]. eauto 10.
Qed.

(** The indicator function rewrites its own columns with the same values. *)
Lemma populate_indicators_again `{Indicators} df df1 c1 c2 :
  populate_indicators df = Ok df1 →
  populate_indicators (setitem (setitem df1 "enter" c1) "exit" c2)
  = Ok (setitem (setitem df1 "enter" c1) "exit" c2).
Proof.
  intros Hrun.
  destruct (populate_indicators_Ok df df1 Hrun)
    as (close & high & low & volume & Hc & Hh & Hl & Hv & ->).
  match goal with |- _ = Ok ?d => set (df3 := d) end.
  assert (∀ name, name ∈ price_inputs → getitem df3 name = getitem df name)
    as Hprice.
  { intros name Hname. subst df3.
    unfold write_columns, indicator_columns.
    rewrite ema_slow_name, ema_fast_name. cbn [foldl fst snd].
    unfold price_inputs in Hname.
    repeat (apply elem_of_cons in Hname as [->|Hname];
            [by rewrite !getitem_setitem_ne by discriminate|]).
    by apply elem_of_nil in Hname. }
  assert (getitem df3 "close" = Ok close ∧ getitem df3 "high" = Ok high ∧
          getitem df3 "low" = Ok low ∧ getitem df3 "volume" = Ok volume)
    as (Hc3 & Hh3 & Hl3 & Hv3).
  { rewrite !Hprice by (unfold price_inputs; rewrite !elem_of_cons; tauto).
    done. }
  assert (∀ name xs, getitem df3 name = Ok xs → is_Some (columns df3 !! name))
    as Hsome.
  { intros name xs. unfold getitem.
    destruct (columns df3 !! name) as [[?|?]|]; eauto. discriminate. }
  destruct (populate_indicators_run df3)
    as (close' & high' & low' & volume' & Hc' & Hh' & Hl' & Hv' & ->).
  { unfold has_columns, price_inputs. repeat constructor; eapply Hsome; eassumption. }
  assert (close' = close ∧ high' = high ∧ low' = low ∧ volume' = volume)
    as (-> & -> & -> & ->) by (repeat split; congruence).
  f_equal.
  apply write_columns_id. subst df3. unfold indicator_columns, write_columns.
  rewrite ema_slow_name, ema_fast_name.
  repeat constructor; cbn [foldl fst snd setitem columns];
    rewrite !lookup_insert_ne by discriminate; apply lookup_insert_eq.
Qed.

(** Two hundred bars of rising prices: the first run adds the indicator and
    signal columns (at bar 100 the price is above both EMAs in a quiet,
    oversold market: entry +1, exit -1), the second run leaves the table as
    it is. *)
Example pipeline_rerun_rising_prices :
  (df ← pipeline (H := Doubles.quiet_market) (Fixtures.ramp 200);
   df' ← pipeline (H := Doubles.quiet_market) df;
   mret (signal_at df "enter" 100, signal_at df "exit" 100,
         signal_at df' "enter" 100, signal_at df' "exit" 100))
  = Ok (Some 1%Z, Some (-1)%Z, Some 1%Z, Some (-1)%Z).
Proof. vm_compute. reflexivity. Qed.

(** C10.  The three functions are functions of the table and of the numeric
    routines only.  Since the source mutates its argument and returns it, a
    second run receives the table the first run has written to: it raises
    nothing and returns that table with every column unchanged.  When the
    first run raises (a price column is missing, or a column is misaligned)
    so does the combined run, with the same error. *)
Theorem pipeline_rerun_identical `{Indicators} df :
  pipeline df ≫= pipeline = pipeline df.
Proof.
  unfold pipeline at 2 3.
  destruct (populate_indicators df) as [df1|e] eqn:Hind; [|reflexivity].
  rewrite bind_Ok.
  destruct (populate_entry_trend df1) as [df2|e] eqn:Hentry; [|reflexivity].
  rewrite bind_Ok.
  destruct (populate_exit_trend df2) as [df3|e] eqn:Hexit; [|reflexivity].
  rewrite bind_Ok.
  destruct (populate_entry_trend_again _ _ Hentry) as [[c1 ->] Hentry'].
  destruct (populate_exit_trend_again _ _ Hexit) as [[c2 ->] Hexit'].
  unfold pipeline.
  rewrite (populate_indicators_again df df1 c1 c2 Hind), bind_Ok.
  rewrite populate_entry_trend_frame, Hentry', !bind_Ok.
  exact Hexit'.
Qed.


(** * Further properties of the strategy *)

(** ** Missing columns *)

Lemma getitem_missing df name :
  columns df !! name = None → getitem df name = Raise (KeyError name).
Proof. unfold getitem. by intros ->. Qed.

Lemma getitem_present df name c :
  columns df !! name = Some c → ∃ xs, getitem df name = Ok xs.
Proof. intros Hc. apply getitem_is_Some. eauto. Qed.

(** One step of [first_missing] against one read of the function. *)
Ltac first_missing_step Hmiss :=
  match type of Hmiss with
  | context [bool_decide (columns ?df !! ?n = None)] =>
      let Hc := fresh "Hc" in
      let c := fresh "c" in
      destruct (columns df !! n) as [c|] eqn:Hc;
      [ rewrite bool_decide_eq_false_2 in Hmiss by done;
        apply getitem_present in Hc as [? Hc];
        rewrite ?getitem_setitem_ne by discriminate;
        rewrite Hc, bind_Ok; clear Hc
      | rewrite bool_decide_eq_true_2 in Hmiss by done;
        injection Hmiss as <-; apply getitem_missing in Hc;
        rewrite ?getitem_setitem_ne by discriminate;
        by rewrite Hc ]
  end.

Lemma talib_inputs_missing df names :
  ¬ has_columns df names →
  talib_inputs df names = Raise (MissingInputs (absent df names)).
Proof.
  rewrite <- absent_nil. unfold talib_inputs.
  by destruct (absent df names).
Qed.

(** X1.  [populate_indicators] needs the columns close, high, low and volume
    (never open).  Without close, the first TA-Lib call (the fast EMA)
    raises TA-Lib's exception naming close; with close but without high or
    low, the ADX call raises it naming those of high and low that are
    missing; with the three of them but without volume, the read of volume
    for its rolling mean raises [KeyError]. *)
Theorem populate_indicators_missing_column `{Indicators} df name :
  first_missing df price_inputs = Some name →
  populate_indicators df
  = Raise (if bool_decide (name = "volume") then KeyError "volume"
           else if bool_decide (name = "close") then MissingInputs ["close"]
           else MissingInputs (absent df ["high"; "low"])).
Proof.
  intros Hmiss. rewrite populate_indicators_closed.
  unfold first_missing, price_inputs in Hmiss. cbn [List.find] in Hmiss.
  destruct (columns df !! "close") as [c|] eqn:Hclose.
  2:{ rewrite bool_decide_eq_true_2 in Hmiss by done. injection Hmiss as <-.
      unfold talib_inputs, absent. cbn [List.filter]. rewrite Hclose.
      rewrite (bool_decide_eq_true_2 (@None column = None)) by done.
      reflexivity. }
  rewrite bool_decide_eq_false_2 in Hmiss by done.
  rewrite (proj2 (talib_inputs_Ok df ["close"])), bind_Ok
    by (repeat constructor; rewrite Hclose; eauto).
  assert (absent df ["high"; "low"; "close"] = absent df ["high"; "low"])
    as Habsent.
  { unfold absent. cbn [List.filter]. rewrite Hclose.
    by rewrite (bool_decide_eq_false_2 (Some c = None)). }
  destruct (columns df !! "high") as [h|] eqn:Hhigh.
  2:{ rewrite bool_decide_eq_true_2 in Hmiss by done. injection Hmiss as <-.
      rewrite talib_inputs_missing, Habsent; [done|].
      intros Hall. apply Forall_cons in Hall as [[? Hsome] _]. congruence. }
  rewrite bool_decide_eq_false_2 in Hmiss by done.
  destruct (columns df !! "low") as [l|] eqn:Hlow.
  2:{ rewrite bool_decide_eq_true_2 in Hmiss by done. injection Hmiss as <-.
      rewrite talib_inputs_missing, Habsent; [done|].
      intros Hall. apply Forall_cons in Hall as [_ Hall].
      apply Forall_cons in Hall as [[? Hsome] _]. congruence. }
  rewrite bool_decide_eq_false_2 in Hmiss by done.
  rewrite (proj2 (talib_inputs_Ok df ["high"; "low"; "close"])), bind_Ok
    by (repeat constructor; rewrite ?Hclose, ?Hhigh, ?Hlow; eauto).
  apply getitem_present in Hclose as [? ->].
  apply getitem_present in Hhigh as [? ->].
  apply getitem_present in Hlow as [? ->].
  rewrite !bind_Ok.
  destruct (columns df !! "volume") as [v|] eqn:Hvolume.
  - by rewrite bool_decide_eq_false_2 in Hmiss by done.
  - rewrite bool_decide_eq_true_2 in Hmiss by done. injection Hmiss as <-.
    by rewrite (getitem_missing _ _ Hvolume).
Qed.

Lemma populate_indicators_missing_column_witness :
  populate_indicators (H := Doubles.quiet_market)
    (drop_column (drop_column (Fixtures.ramp 3) "low") "high")
  = Raise (MissingInputs ["high"; "low"]).
Proof.
  apply (populate_indicators_missing_column (H := Doubles.quiet_market)
           (drop_column (drop_column (Fixtures.ramp 3) "low") "high") "high").
  vm_compute. reflexivity.
Defined.

(** Without volume the failure is a [KeyError]; without close it is TA-Lib's
    exception, raised by the first call. *)
Example populate_indicators_without_volume_or_close :
  populate_indicators (H := Doubles.quiet_market)
    (drop_column (Fixtures.ramp 3) "volume") = Raise (KeyError "volume") ∧
  populate_indicators (H := Doubles.quiet_market)
    (drop_column (drop_column (Fixtures.ramp 3) "close") "low")
  = Raise (MissingInputs ["close"]).
Proof. split; vm_compute; reflexivity. Qed.

(** X2.  On a table of at least 200 bars [populate_entry_trend] raises
    [KeyError] for the first column, in the order the conditions read them,
    that the table lacks. *)
Theorem populate_entry_trend_missing_column df name :
  startup_candle_count ≤ shape0 df →
  first_missing df entry_inputs = Some name →
  populate_entry_trend df = Raise (KeyError name).
Proof.
  intros Hwarm Hmiss. unfold populate_entry_trend.
  rewrite loc_set_all_start.
  destruct (start_column df "enter") as [c0|] eqn:Hstart.
  2:{ apply start_column_None in Hstart as [Hzero _].
      unfold startup_candle_count in Hwarm. lia. }
  rewrite bind_Ok.
  change (shape0 (setitem df "enter" (column_fill 0 c0))) with (shape0 df).
  case_bool_decide as Hlt; [lia|].
  unfold first_missing, entry_inputs in Hmiss.
  rewrite ema_slow_name, ema_fast_name in *. cbn [List.find] in Hmiss.
  repeat first_missing_step Hmiss.
  discriminate.
Qed.

Lemma populate_entry_trend_missing_column_witness :
  populate_entry_trend (drop_column (Fixtures.uptrend 151) "rsi")
  = Raise (KeyError "rsi").
Proof.
  apply (populate_entry_trend_missing_column
           (drop_column (Fixtures.uptrend 151) "rsi") "rsi").
  - unfold startup_candle_count. simpl. lia.
  - vm_compute. reflexivity.
Defined.

(** X3.  [populate_exit_trend] has no warm-up gate in front of its reads: on a
    table of any length to which the scalar 0 can be assigned (a table with
    at least one bar, or one that has an [exit] column already) it raises
    [KeyError] for the first of close, ema_50, rsi that the table lacks.  On
    a table without bars and without an [exit] column the scalar assignment
    raises [ValueError] before any column is read. *)
Theorem populate_exit_trend_missing_column df name :
  first_missing df exit_inputs = Some name →
  populate_exit_trend df
  = Raise (if bool_decide (shape0 df = 0 ∧ columns df !! "exit" = None)
           then ValueError else KeyError name).
Proof.
  intros Hmiss. unfold populate_exit_trend.
  rewrite loc_set_all_start.
  destruct (start_column df "exit") as [c0|] eqn:Hstart.
  2:{ apply start_column_None in Hstart. by rewrite bool_decide_eq_true_2. }
  rewrite bool_decide_eq_false_2.
  2:{ intros Hnone. apply start_column_None in Hnone. congruence. }
  rewrite bind_Ok.
  unfold first_missing, exit_inputs in Hmiss.
  rewrite ema_slow_name in *. cbn [List.find] in Hmiss.
  repeat first_missing_step Hmiss.
  discriminate.
Qed.

Lemma populate_exit_trend_missing_column_witness :
  populate_exit_trend (drop_column (Fixtures.uptrend 1) "rsi")
  = Raise (KeyError "rsi").
Proof.
  apply (populate_exit_trend_missing_column
           (drop_column (Fixtures.uptrend 1) "rsi") "rsi").
  vm_compute. reflexivity.
Defined.

(** The price columns without a bar: the assignment of 0 fails first. *)
Example populate_exit_trend_without_bars :
  populate_exit_trend Fixtures.no_bars = Raise ValueError.
Proof. vm_compute. reflexivity. Qed.

(** ** What [populate_indicators] writes and what it leaves alone *)

Lemma write_columns_lookup_in df cols name :
  name ∈ cols.*1 →
  ∃ xs, (name, xs) ∈ cols ∧
        columns (write_columns df cols) !! name = Some (FloatCol xs).
Proof.
  revert df. induction cols as [|[k c] cols IH]; intros df Hname.
  { by apply elem_of_nil in Hname. }
  destruct (decide (name ∈ cols.*1)) as [Hin|Hout].
  - destruct (IH (setitem df k (FloatCol c)) Hin) as (xs & Hxs & Hlook).
    exists xs. split; [by apply elem_of_cons; right|done].
  - rewrite fmap_cons in Hname. apply elem_of_cons in Hname as [->|Hin]; [|done].
    exists c. split; [by apply elem_of_cons; left|].
    change (write_columns df ((k, c) :: cols))
      with (write_columns (setitem df k (FloatCol c)) cols).
    rewrite write_columns_lookup_ne by done. simpl. apply lookup_insert_eq.
Qed.

Lemma indicator_columns_names `{Indicators} close high low volume :
  (indicator_columns close high low volume).*1 = indicator_names.
Proof. reflexivity. Qed.

(** X4.  [populate_indicators] keeps the number of rows, leaves every column
    that is not one of the twelve indicator columns exactly as it was (the
    five price columns among them), and leaves each of the twelve as a
    float64 column. *)
Theorem populate_indicators_frame `{Indicators} df df' :
  populate_indicators df = Ok df' →
  shape0 df' = shape0 df ∧
  (∀ name, name ∉ indicator_names → columns df' !! name = columns df !! name) ∧
  (∀ name, name ∈ ["open"; "high"; "low"; "close"; "volume"] →
     columns df' !! name = columns df !! name) ∧
  (∀ name, name ∈ indicator_names → ∃ xs, columns df' !! name = Some (FloatCol xs)).
Proof.
  intros Hrun.
  destruct (populate_indicators_Ok df df' Hrun)
    as (close & high & low & volume & _ & _ & _ & _ & ->).
  split; [apply shape0_write_columns|].
  assert (∀ name, name ∉ indicator_names →
            columns (write_columns df (indicator_columns close high low volume))
              !! name = columns df !! name) as Hkeep.
  { intros name Hname. apply write_columns_lookup_ne.
    by rewrite indicator_columns_names. }
  split; [exact Hkeep|]. split.
  - intros name Hname. apply Hkeep.
    unfold indicator_names. rewrite ema_slow_name, ema_fast_name.
    repeat (apply elem_of_cons in Hname as [->|Hname];
            [rewrite !not_elem_of_cons; repeat split; try discriminate;
             apply not_elem_of_nil|]).
    by apply elem_of_nil in Hname.
  - intros name Hname.
    destruct (write_columns_lookup_in df
                (indicator_columns close high low volume) name)
      as (xs & _ & Hxs); [by rewrite indicator_columns_names|eauto].
Qed.

Lemma populate_indicators_prices :
  ∃ df',
    populate_indicators (H := insufficient_history) Fixtures.prices = Ok df'.
Proof. eexists. vm_compute. reflexivity. Defined.

Lemma populate_indicators_frame_witness :
  ∃ df',
    populate_indicators (H := insufficient_history) Fixtures.prices = Ok df' ∧
    shape0 df' = 3 ∧
    (∀ name, name ∉ indicator_names →
       columns df' !! name = columns Fixtures.prices !! name) ∧
    (∀ name, name ∈ ["open"; "high"; "low"; "close"; "volume"] →
       columns df' !! name = columns Fixtures.prices !! name) ∧
    (∀ name, name ∈ indicator_names →
       ∃ xs, columns df' !! name = Some (FloatCol xs)).
Proof.
  destruct populate_indicators_prices as [df' Hrun].
  exists df'. split; [exact Hrun|].
  apply (populate_indicators_frame (H := insufficient_history)
           Fixtures.prices df' Hrun).
Defined.



(** Three bars of rising prices with an [ema_50] column of 7s left in the
    table: at the last bar close is 102, the slow EMA written is a number
    between 100 and 102 (not 7), and the offset is positive. *)
Example price_above_ema_slow_on_rising_prices :
  (df' ← populate_indicators (H := Doubles.quiet_market)
           (setitem (Fixtures.ramp 3) "ema_50" (Fixtures.warm 0 3 7));
   mret (c ← cell df' "close" 2; e ← cell df' "ema_50" 2;
         d ← cell df' "price_above_ema_slow" 2;
         Some (SFeqb c (F64.of_Z 102), F64.ltb (F64.of_Z 100) e, F64.ltb e c,
               SFeqb d (F64.sub c e), F64.gtb d (F64.of_Z 0))))
  = Ok (Some (true, true, true, true, true)).
Proof. vm_compute. reflexivity. Qed.

(** ** The signal columns on aligned tables *)

Lemma cell_total df name i :
  aligned df → is_Some (columns df !! name) → i < shape0 df →
  ∃ x, cell df name i = Some x.
Proof.
  intros Hal Hc Hi. apply getitem_is_Some in Hc as [xs Hget].
  unfold cell. rewrite Hget. apply lookup_lt_is_Some_2.
  by rewrite (getitem_length _ _ _ Hal Hget).
Qed.

Lemma iloc_total df i :
  aligned df → has_columns df entry_inputs → i < shape0 df →
  ∃ r, iloc df i = Some r.
Proof.
  intros Hal Hcols Hi. unfold has_columns, entry_inputs in Hcols. unfold iloc.
  repeat match type of Hcols with
    | Forall _ (_ :: _) =>
        let Hc := fresh "Hc" in
        apply Forall_cons in Hcols as [Hc Hcols];
        apply (cell_total _ _ i Hal) in Hc as [? Hc]; [|done]
    end.
  repeat match goal with H : cell _ _ _ = Some _ |- _ => rewrite H; clear H end.
  simpl. eauto.
Qed.

Lemma assigned_signal_value long short : signal_value (assigned long short).
Proof. unfold signal_value. destruct long, short; simpl; auto. Qed.

(** Entry followed by exit leaves signal values at every bar. *)
Lemma entry_then_exit_values df :
  aligned df → has_columns df entry_inputs → 0 < shape0 df →
  ∃ enter exit_,
    populate_entry_trend df = Ok (setitem df "enter" enter) ∧
    populate_exit_trend (setitem df "enter" enter)
    = Ok (setitem (setitem df "enter" enter) "exit" exit_) ∧
    column_length enter = shape0 df ∧ column_length exit_ = shape0 df ∧
    (∀ c0, start_column df "enter" = Some c0 → same_layout c0 enter) ∧
    (∀ c0, start_column df "exit" = Some c0 → same_layout c0 exit_) ∧
    ∀ i, i < shape0 df →
      ∃ v w, column_signal enter i = Some v ∧ column_signal exit_ i = Some w ∧
             signal_value v ∧ signal_value w.
Proof.
  intros Hal Hcols Hpos.
  destruct (entry_then_exit df Hal Hcols Hpos)
    as (enter & exit_ & Hentry & Hexit & Hlen & Hlen' & Hlay & Hlay' & Hsig).
  exists enter, exit_. repeat (split; [done|]).
  intros i Hi. destruct (iloc_total df i Hal Hcols Hi) as [r Hr].
  destruct (Hsig i r Hr) as [Hv Hw].
  eexists _, _. split; [exact Hv|]. split; [exact Hw|]. split.
  - case_bool_decide; [|apply assigned_signal_value].
    unfold signal_value. auto.
  - apply assigned_signal_value.
Qed.

(** What the two signal functions leave on an aligned table with at least
    one bar. *)
Lemma signal_columns_like df :
  aligned df → has_columns df entry_inputs → 0 < shape0 df →
  ∃ df1 df2,
    populate_entry_trend df = Ok df1 ∧
    populate_exit_trend df1 = Ok df2 ∧
    aligned df2 ∧ shape0 df2 = shape0 df ∧
    (∀ i, i < shape0 df →
       ∃ v w, signal_at df2 "enter" i = Some v ∧ signal_at df2 "exit" i = Some w ∧
              signal_value v ∧ signal_value w) ∧
    (∀ name, name = "enter" ∨ name = "exit" →
       (columns df !! name = None → ∃ xs, columns df2 !! name = Some (IntCol xs)) ∧
       (∀ c0, columns df !! name = Some c0 →
          ∃ c, columns df2 !! name = Some c ∧ same_layout c0 c)).
Proof.
  intros Hal Hcols Hpos.
  destruct (entry_then_exit_values df Hal Hcols Hpos)
    as (enter & exit_ & Hentry & Hexit & Hlen & Hlen' & Hlay & Hlay' & Hvalues).
  eexists _, _. split; [exact Hentry|]. split; [exact Hexit|].
  split; [by repeat apply aligned_setitem|]. split; [done|]. split.
  - intros i Hi. destruct (Hvalues i Hi) as (v & w & Hv & Hw & Hvalue & Hvalue').
    exists v, w. rewrite signal_at_setitem_ne by discriminate.
    by rewrite !signal_at_setitem.
  - apply start_column_layout in Hlay as [Hnew Hold].
    apply start_column_layout in Hlay' as [Hnew' Hold'].
    intros name [-> | ->]; cbn [setitem columns].
    + rewrite lookup_insert_ne by discriminate. rewrite lookup_insert_eq.
      split; [intros Hnone; destruct (Hnew Hnone Hpos) as [xs ->]|]; eauto.
    + rewrite lookup_insert_eq.
      split; [intros Hnone; destruct (Hnew' Hnone Hpos) as [xs ->]|]; eauto.
Qed.

(** X6.  On an aligned table with at least one bar that has the columns they
    read, the two signal functions raise nothing, keep the table aligned,
    and leave under [enter] and under [exit] one cell per bar, each equal to
    -1, 0 or +1.  A signal column is created as an integer column when the
    table had none; a column that was there keeps its dtype, so that a
    float64 column holds the signals as -1.0, 0.0 and 1.0. *)
Theorem signal_columns_well_formed df :
  aligned df → has_columns df entry_inputs → 0 < shape0 df →
  ∃ df1 df2,
    populate_entry_trend df = Ok df1 ∧
    populate_exit_trend df1 = Ok df2 ∧
    aligned df2 ∧ shape0 df2 = shape0 df ∧
    (∀ i, i < shape0 df →
       ∃ v w, signal_at df2 "enter" i = Some v ∧ signal_at df2 "exit" i = Some w ∧
              signal_value v ∧ signal_value w) ∧
    (∀ name, name = "enter" ∨ name = "exit" →
       (columns df !! name = None → ∃ xs, columns df2 !! name = Some (IntCol xs)) ∧
       (∀ c0, columns df !! name = Some c0 →
          ∃ c, columns df2 !! name = Some c ∧ same_layout c0 c)).
Proof. apply signal_columns_like. Qed.

Lemma entry_columns_uptrend_200 : has_columns (Fixtures.uptrend 151) entry_inputs.
Proof. repeat constructor; vm_compute; eauto. Defined.

Lemma signal_columns_well_formed_witness :
  ∃ df1 df2,
    populate_entry_trend
      (setitem (Fixtures.uptrend 151) "enter" (Fixtures.warm 0 200 1)) = Ok df1 ∧
    populate_exit_trend df1 = Ok df2 ∧
    aligned df2 ∧ shape0 df2 = 200 ∧
    (∀ i, i < 200 →
       ∃ v w, signal_at df2 "enter" i = Some v ∧ signal_at df2 "exit" i = Some w ∧
              signal_value v ∧ signal_value w) ∧
    (∀ name, name = "enter" ∨ name = "exit" →
       (columns (setitem (Fixtures.uptrend 151) "enter" (Fixtures.warm 0 200 1))
          !! name = None →
        ∃ xs, columns df2 !! name = Some (IntCol xs)) ∧
       (∀ c0, columns (setitem (Fixtures.uptrend 151) "enter" (Fixtures.warm 0 200 1))
                !! name = Some c0 →
          ∃ c, columns df2 !! name = Some c ∧ same_layout c0 c)).
Proof.
  apply (signal_columns_well_formed
           (setitem (Fixtures.uptrend 151) "enter" (Fixtures.warm 0 200 1))).
  - apply aligned_setitem; [apply uptrend_200_aligned|reflexivity].
  - apply has_columns_setitem, entry_columns_uptrend_200.
  - simpl. lia.
Defined.

(** The 200-bar uptrend with a float64 [enter] column left in it: after the
    two functions bar 100 reads entry +1 and exit -1, [enter] is still a
    float64 column and [exit], which was not there, is an int64 column. *)
Example signal_columns_keep_their_dtype :
  (df1 ← populate_entry_trend
           (setitem (Fixtures.uptrend 151) "enter" (Fixtures.warm 0 200 1));
   df2 ← populate_exit_trend df1;
   mret (signal_at df2 "enter" 100, signal_at df2 "exit" 100,
         cell df2 "enter" 100,
         match columns df2 !! "enter", columns df2 !! "exit" with
         | Some (FloatCol _), Some (IntCol _) => true
         | _, _ => false
         end))
  = Ok (Some 1%Z, Some (-1)%Z, Some (F64.of_Z 1), true).
Proof. vm_compute. reflexivity. Qed.

(** ** The three hooks in sequence *)

Lemma has_columns_write_indicators `{Indicators} df close high low volume :
  is_Some (columns df !! "close") → is_Some (columns df !! "volume") →
  has_columns (write_columns df (indicator_columns close high low volume))
    entry_inputs.
Proof.
  intros Hc Hv. unfold has_columns, entry_inputs.
  assert (∀ name, name ∈ indicator_names →
            is_Some (columns (write_columns df
                       (indicator_columns close high low volume)) !! name))
    as Hnew.
  { intros name Hname.
    destruct (write_columns_lookup_in df
                (indicator_columns close high low volume) name)
      as (xs & _ & ->); [by rewrite indicator_columns_names|eauto]. }
  assert (∀ name, name ∉ indicator_names → is_Some (columns df !! name) →
            is_Some (columns (write_columns df
                       (indicator_columns close high low volume)) !! name))
    as Hold.
  { intros name Hname Hsome. rewrite write_columns_lookup_ne; [done|].
    by rewrite indicator_columns_names. }
  unfold indicator_names in *. rewrite ema_slow_name, ema_fast_name in *.
  repeat constructor;
    first
      [ apply Hnew; rewrite !elem_of_cons; tauto
      | apply Hold; [|assumption];
        rewrite !not_elem_of_cons; repeat split; try discriminate;
        apply not_elem_of_nil ].
Qed.

(** X7.  With numeric routines that return one value per bar, the three hooks
    run in sequence on any aligned table with at least one bar that has the
    close, high, low and volume columns: nothing is raised, the table stays
    aligned with the same number of rows, the five price columns are
    untouched, and [enter] and [exit] hold one cell per bar, each equal to
    -1, 0 or +1, in an integer column when the table had no such column and
    in a column of the dtype that was there otherwise. *)
Theorem pipeline_runs `{I : Indicators} df :
  length_preserving I → aligned df → has_columns df price_inputs →
  0 < shape0 df →
  ∃ df',
    pipeline df = Ok df' ∧
    aligned df' ∧ shape0 df' = shape0 df ∧
    (∀ i, i < shape0 df →
       ∃ v w, signal_at df' "enter" i = Some v ∧ signal_at df' "exit" i = Some w ∧
              signal_value v ∧ signal_value w) ∧
    (∀ name, name = "enter" ∨ name = "exit" →
       (columns df !! name = None → ∃ xs, columns df' !! name = Some (IntCol xs)) ∧
       (∀ c0, columns df !! name = Some c0 →
          ∃ c, columns df' !! name = Some c ∧ same_layout c0 c)) ∧
    ∀ name, name ∈ ["open"; "high"; "low"; "close"; "volume"] →
            columns df' !! name = columns df !! name.
Proof.
  intros Hlib Hal Hcols Hpos.
  destruct (populate_indicators_run df Hcols)
    as (close & high & low & volume & Hc & Hh & Hl & Hv & Hind).
  set (df1 := write_columns df (indicator_columns close high low volume)) in *.
  assert (aligned df1) as Hal1.
  { apply aligned_write_columns; [done|].
    apply indicator_columns_lengths; [done|..];
      by eapply getitem_length. }
  assert (has_columns df1 entry_inputs) as Hcols1.
  { unfold has_columns, price_inputs in Hcols.
    apply Forall_cons in Hcols as [Hclose Hcols].
    apply Forall_cons in Hcols as [_ Hcols].
    apply Forall_cons in Hcols as [_ Hcols].
    apply Forall_cons in Hcols as [Hvolume _].
    by apply has_columns_write_indicators. }
  assert (shape0 df1 = shape0 df) as Hshape by apply shape0_write_columns.
  assert (∀ name, name ∉ indicator_names →
            columns df1 !! name = columns df !! name) as Hkeep.
  { intros name Hname. apply write_columns_lookup_ne.
    by rewrite indicator_columns_names. }
  destruct (signal_columns_like df1)
    as (df2 & df3 & Hentry & Hexit & Hal3 & Hshape3 & Hvalues & Hlayout);
    [done|done|lia|].
  exists df3. split.
  { unfold pipeline. rewrite Hind, bind_Ok, Hentry, bind_Ok. exact Hexit. }
  split; [done|]. split; [congruence|]. split.
  { intros i Hi. apply Hvalues. lia. }
  split.
  { intros name Hname. destruct (Hlayout name Hname) as [Hnew Hold].
    assert (name ∉ indicator_names) as Hother.
    { unfold indicator_names. rewrite ema_slow_name, ema_fast_name.
      destruct Hname as [-> | ->]; other_name. }
    rewrite <- (Hkeep name Hother). done. }
  intros name Hname.
  assert (columns df3 !! name = columns df1 !! name) as ->.
  { apply populate_entry_trend_shape in Hentry as [c1 ->].
    apply populate_exit_trend_shape in Hexit as [c2 ->].
    cbn [setitem columns].
    repeat (apply elem_of_cons in Hname as [->|Hname];
            [by rewrite !lookup_insert_ne by discriminate|]).
    by apply elem_of_nil in Hname. }
  apply Hkeep. unfold indicator_names. rewrite ema_slow_name, ema_fast_name.
  repeat (apply elem_of_cons in Hname as [->|Hname]; [other_name|]).
  by apply elem_of_nil in Hname.
Qed.

Lemma pipeline_runs_witness :
  ∃ df',
    pipeline (H := Doubles.quiet_market) (Fixtures.ramp 200) = Ok df' ∧
    aligned df' ∧ shape0 df' = 200 ∧
    (∀ i, i < 200 →
       ∃ v w, signal_at df' "enter" i = Some v ∧ signal_at df' "exit" i = Some w ∧
              signal_value v ∧ signal_value w) ∧
    (∀ name, name = "enter" ∨ name = "exit" →
       (columns (Fixtures.ramp 200) !! name = None →
        ∃ xs, columns df' !! name = Some (IntCol xs)) ∧
       (∀ c0, columns (Fixtures.ramp 200) !! name = Some c0 →
          ∃ c, columns df' !! name = Some c ∧ same_layout c0 c)) ∧
    ∀ name, name ∈ ["open"; "high"; "low"; "close"; "volume"] →
            columns df' !! name = columns (Fixtures.ramp 200) !! name.
Proof.
  apply (pipeline_runs (I := Doubles.quiet_market) (Fixtures.ramp 200)).
  - apply quiet_market_length_preserving.
  - apply ramp_200_aligned.
  - apply ramp_200_prices.
  - simpl. lia.
Defined.

(** ** What the signal functions do not read *)





(** ** The market mode and the entry rules *)

Section FloatOrderMore.
Implicit Types x y z : spec_float.

Ltac compare_cases :=
  repeat match goal with
    | b : bool |- _ => destruct b
    | |- context [Z.compare ?a ?b] => destruct (Z.compare_spec a b)
    | |- context [Pos.compare_cont Eq ?a ?b] =>
        change (Pos.compare_cont Eq a b) with (Pos.compare a b);
        destruct (Pos.compare_spec a b)
    end;
  simpl in *; try discriminate; try reflexivity; try lia.

Lemma ltb_leb x y : F64.ltb x y = true → F64.leb x y = true.
Proof.
  unfold F64.ltb, F64.leb, SFltb, SFleb.
  by destruct (SFcompare x y) as [[| |]|].
Qed.

Lemma leb_ltb_ltb_false x y z :
  F64.leb x y = true → F64.ltb y z = true → F64.ltb z x = false.
Proof.
  intros Hxy Hyz. destruct (F64.ltb z x) eqn:Hzx; [|done].
  apply ltb_leb in Hzx. by rewrite (leb_ltb_leb_false x y z) in Hzx.
Qed.

(** Two numbers that are not equal are ordered one way or the other. *)
Lemma ltb_total x y :
  x ≠ F64.nan → y ≠ F64.nan → SFeqb x y = false →
  F64.ltb x y || F64.ltb y x = true.
Proof.
  unfold F64.ltb, F64.nan, SFltb, SFeqb. intros Hx Hy.
  destruct x, y; try done; simpl; compare_cases.
Qed.
End FloatOrderMore.

Lemma row_at_lookup df name i : row_at df i !! name = cell df name i.
Proof.
  unfold row_at, cell, getitem. rewrite lookup_omap.
  destruct (columns df !! name) as [[xs|xs]|]; simpl; [done| |done].
  by rewrite list_lookup_fmap.
Qed.

Lemma row_getitem_Some row name x :
  row !! name = Some x → row_getitem row name = Ok x.
Proof. unfold row_getitem. by intros ->. Qed.

(** In the 'range' mode RSI lies strictly between 40 and 60, out of reach
    of every RSI threshold of the entry rules. *)
Lemma range_rsi_no_entry r :
  F64.ltb (row_rsi r) (F64.of_Z 60) && F64.gtb (row_rsi r) (F64.of_Z 40) = true →
  F64.leb (row_rsi r) (F64.of_Z rsi_oversold) = false ∧
  F64.leb (row_rsi r) (F64.of_Z (rsi_oversold + 5)) = false ∧
  F64.geb (row_rsi r) (F64.of_Z rsi_overbought) = false ∧
  F64.geb (row_rsi r) (F64.of_Z (rsi_overbought - 5)) = false.
Proof.
  rewrite andb_true_iff. unfold F64.gtb, F64.geb. intros [Hlt Hgt].
  assert (∀ lo : Z, F64.ltb (F64.of_Z lo) (F64.of_Z 40) = true →
            F64.leb (row_rsi r) (F64.of_Z lo) = false) as Hlow.
  { intros lo Hlo. destruct (F64.leb (row_rsi r) (F64.of_Z lo)) eqn:Hle; [|done].
    pose proof (leb_ltb_ltb_false _ _ _ Hle Hlo) as Hno.
    unfold F64.ltb in *. congruence. }
  assert (∀ hi : Z, F64.leb (F64.of_Z 60) (F64.of_Z hi) = true →
            F64.leb (F64.of_Z hi) (row_rsi r) = false) as Hhigh.
  { intros hi Hhi. destruct (F64.leb (F64.of_Z hi) (row_rsi r)) eqn:Hle; [|done].
    pose proof (leb_ltb_leb_false _ _ _ Hle Hlt) as Hno. congruence. }
  repeat split; first [by apply Hlow | by apply Hhigh].
Qed.

(** X10.  [_market_mode], applied to a bar of a table of at least 200 bars,
    tells which entry rules can fire there: in 'range' none does and entry is
    0; in 'consolidation' only the range and consolidation groups count; in
    'strong_up' and 'strong_down' only the two breakouts count.  No other
    mode is returned. *)
Theorem market_mode_gates_entries df i r :
  aligned df → startup_candle_count ≤ shape0 df → iloc df i = Some r →
  is_Some (cell df "price_above_ema_slow" i) →
  ∃ mode df',
    _market_mode (row_at df i) = Ok mode ∧
    populate_entry_trend df = Ok df' ∧
    (mode = "range" ∨ mode = "consolidation" ∨
     mode = "strong_up" ∨ mode = "strong_down") ∧
    (mode = "range" → signal_at df' "enter" i = Some 0%Z) ∧
    (mode = "consolidation" →
     signal_at df' "enter" i
     = Some (assigned (range_long r || consolidation_long r)
                      (range_short r || consolidation_short r))) ∧
    (mode = "strong_up" ∨ mode = "strong_down" →
     signal_at df' "enter" i
     = Some (assigned (long_breakout r) (short_breakout r))).
Proof.
  intros Hal Hwarm Hrow [offset Hoffset].
  destruct (populate_entry_trend_warm df Hal Hwarm (iloc_has_columns _ _ _ Hrow))
    as (c & Hrun & _ & _ & Hsig).
  assert (cell df "adx" i = Some (row_adx r) ∧ cell df "rsi" i = Some (row_rsi r))
    as [Hadx Hrsi].
  { apply iloc_cells in Hrow as Hcells. destruct Hcells as (_ & _ & Hrsi).
    split; [|done]. unfold iloc in Hrow.
    repeat match type of Hrow with
      | (?o ≫= _) = Some _ =>
          let E := fresh "E" in destruct o eqn:E; [simpl in Hrow | discriminate]
      end.
    by injection Hrow as <-. }
  unfold _market_mode.
  rewrite (row_getitem_Some _ "adx" (row_adx r)) by by rewrite row_at_lookup.
  rewrite bind_Ok.
  rewrite (row_getitem_Some _ "price_above_ema_slow" offset)
    by by rewrite row_at_lookup.
  rewrite bind_Ok.
  rewrite (row_getitem_Some _ "rsi" (row_rsi r)) by by rewrite row_at_lookup.
  rewrite bind_Ok. unfold mret, result_ret.
  assert (signal_at (setitem df "enter" c) "enter" i
          = Some (assigned (long_entry r) (short_entry r))) as Henter.
  { rewrite signal_at_setitem. by apply Hsig. }
  unfold long_entry, short_entry in Henter.
  fold (trending r).
  destruct (trending r) eqn:Htrend.
  - (* trending: the four non-trending groups are off *)
    pose proof (trending_not_not_trending r Htrend) as Hflat.
    assert (range_long r = false ∧ range_short r = false ∧
            consolidation_long r = false ∧ consolidation_short r = false)
      as (Hrl & Hrs & Hcl & Hcs).
    { unfold range_long, range_short, consolidation_long, consolidation_short.
      by rewrite Hflat. }
    rewrite Hrl, Hrs, Hcl, Hcs, !orb_false_r in Henter.
    eexists _, _. split; [reflexivity|]. split; [exact Hrun|].
    destruct (F64.gtb offset (F64.of_Z 0));
      (split; [tauto|]); (split; [discriminate|]); (split; [discriminate|]);
      by intros _.
  - (* not trending: the two breakouts are off *)
    assert (long_breakout r = false ∧ short_breakout r = false) as [Hlb Hsb].
    { unfold long_breakout, short_breakout. by rewrite Htrend, !andb_false_r. }
    rewrite Hlb, Hsb in Henter. cbn [orb] in Henter.
    eexists _, _. split; [reflexivity|]. split; [exact Hrun|].
    destruct (F64.ltb (row_rsi r) (F64.of_Z 60)
              && F64.gtb (row_rsi r) (F64.of_Z 40)) eqn:Hrange.
    + destruct (range_rsi_no_entry r Hrange) as (H30 & H35 & H70 & H65).
      assert (range_long r = false ∧ range_short r = false ∧
              consolidation_long r = false ∧ consolidation_short r = false)
        as (Hrl & Hrs & Hcl & Hcs).
      { unfold range_long, range_short, consolidation_long, consolidation_short.
        by rewrite H30, H35, H70, H65, !andb_false_r. }
      rewrite Hrl, Hrs, Hcl, Hcs in Henter.
      split; [tauto|]. split; [by intros _|].
      split; [discriminate|]. intros [?|?]; discriminate.
    + split; [tauto|]. split; [discriminate|].
      split; [by intros _|]. intros [?|?]; discriminate.
Qed.

Lemma uptrend_with_offset_aligned : aligned uptrend_with_offset.
Proof. apply aligned_decide. vm_compute. reflexivity. Defined.

Lemma uptrend_with_offset_bar_100 :
  iloc uptrend_with_offset 100 = Some Fixtures.uptrend_bar.
Proof. vm_compute. reflexivity. Defined.

Lemma market_mode_gates_entries_witness :
  ∃ mode df',
    _market_mode (row_at uptrend_with_offset 100) = Ok mode ∧
    populate_entry_trend uptrend_with_offset = Ok df' ∧
    (mode = "range" ∨ mode = "consolidation" ∨
     mode = "strong_up" ∨ mode = "strong_down") ∧
    (mode = "range" → signal_at df' "enter" 100 = Some 0%Z) ∧
    (mode = "consolidation" →
     signal_at df' "enter" 100
     = Some (assigned
               (range_long Fixtures.uptrend_bar
                || consolidation_long Fixtures.uptrend_bar)
               (range_short Fixtures.uptrend_bar
                || consolidation_short Fixtures.uptrend_bar))) ∧
    (mode = "strong_up" ∨ mode = "strong_down" →
     signal_at df' "enter" 100
     = Some (assigned (long_breakout Fixtures.uptrend_bar)
                      (short_breakout Fixtures.uptrend_bar))).
Proof.
  apply (market_mode_gates_entries uptrend_with_offset 100).
  - apply uptrend_with_offset_aligned.
  - unfold startup_candle_count. simpl. lia.
  - apply uptrend_with_offset_bar_100.
  - vm_compute. eauto.
Defined.

(** ** Entry and exit on the same bar *)

(** X11.  On a table of at least 200 bars, after the two signal functions: a bar
    where the long breakout or the range-long rule holds has entry = +1 and
    exit = -1 (the short-exit value, not the long-exit one); a bar where the
    short breakout or the range-short rule holds has entry = -1 and a
    non-zero exit. *)
Theorem entry_and_exit_same_bar df i r :
  aligned df → startup_candle_count ≤ shape0 df → iloc df i = Some r →
  ∃ df1 df2 enter exit_,
    populate_entry_trend df = Ok df1 ∧
    populate_exit_trend df1 = Ok df2 ∧
    signal_at df2 "enter" i = Some enter ∧
    signal_at df2 "exit" i = Some exit_ ∧
    (long_breakout r || range_long r = true →
     enter = 1%Z ∧ exit_ = (-1)%Z) ∧
    (short_breakout r || range_short r = true →
     enter = (-1)%Z ∧ exit_ ≠ 0%Z).
Proof.
  intros Hal Hwarm Hrow.
  assert (0 < shape0 df) as Hpos by (unfold startup_candle_count in Hwarm; lia).
  destruct (entry_then_exit df Hal (iloc_has_columns _ _ _ Hrow) Hpos)
    as (enter & exit_ & Hentry & Hexit & _ & _ & _ & _ & Hsig).
  destruct (Hsig i r Hrow) as [Henter Hexit_].
  rewrite bool_decide_eq_false_2 in Henter by lia.
  eexists _, _, _, _. split; [exact Hentry|]. split; [exact Hexit|].
  split.
  { rewrite signal_at_setitem_ne by discriminate.
    rewrite signal_at_setitem. exact Henter. }
  split; [rewrite signal_at_setitem; exact Hexit_|].
  unfold exit_long, exit_short. split.
  - intros Hlong.
    assert (long_entry r = true) as Hle.
    { unfold long_entry. apply orb_true_iff in Hlong as [->| ->]; [done|].
      by rewrite orb_true_r. }
    rewrite Hle, (long_short_exclusive r Hle). split; [done|].
    assert (F64.gtb (row_close r) (row_ema_slow r)
            || F64.leb (row_rsi r) (F64.of_Z rsi_oversold) = true) as ->; [|done].
    apply orb_true_iff in Hlong as [Hb|Hr].
    + unfold long_breakout in Hb. rewrite !andb_true_iff in Hb.
      destruct Hb as ((((_ & _) & ->) & _) & _). done.
    + unfold range_long in Hr. rewrite !andb_true_iff in Hr.
      destruct Hr as ((_ & ->) & _). by rewrite orb_true_r.
  - intros Hshort.
    assert (short_entry r = true) as ->.
    { unfold short_entry. apply orb_true_iff in Hshort as [->| ->]; [done|].
      by rewrite orb_true_r. }
    split; [by destruct (long_entry r)|].
    assert (F64.ltb (row_close r) (row_ema_slow r)
            || F64.geb (row_rsi r) (F64.of_Z rsi_overbought) = true) as ->.
    { apply orb_true_iff in Hshort as [Hb|Hr].
      - unfold short_breakout in Hb. rewrite !andb_true_iff in Hb.
        destruct Hb as ((((_ & _) & ->) & _) & _). done.
      - unfold range_short in Hr. rewrite !andb_true_iff in Hr.
        destruct Hr as ((_ & ->) & _). by rewrite orb_true_r. }
    by destruct (F64.gtb (row_close r) (row_ema_slow r)
                 || F64.leb (row_rsi r) (F64.of_Z rsi_oversold)).
Qed.

Lemma entry_and_exit_same_bar_witness :
  ∃ df1 df2 enter exit_,
    populate_entry_trend (Fixtures.uptrend 151) = Ok df1 ∧
    populate_exit_trend df1 = Ok df2 ∧
    signal_at df2 "enter" 100 = Some enter ∧
    signal_at df2 "exit" 100 = Some exit_ ∧
    (long_breakout Fixtures.uptrend_bar || range_long Fixtures.uptrend_bar = true →
     enter = 1%Z ∧ exit_ = (-1)%Z) ∧
    (short_breakout Fixtures.uptrend_bar || range_short Fixtures.uptrend_bar = true →
     enter = (-1)%Z ∧ exit_ ≠ 0%Z).
Proof.
  apply (entry_and_exit_same_bar (Fixtures.uptrend 151) 100).
  - apply uptrend_200_aligned.
  - unfold startup_candle_count. simpl. lia.
  - apply uptrend_200_bar_100.
Defined.

(** X12.  At a bar where close and the slow EMA are both numbers and are not
    equal, [populate_exit_trend] never leaves exit at 0: the price is on one
    side of the EMA and one of the two exit conditions holds. *)
Theorem exit_nonzero_off_the_ema df i close slow rsi :
  aligned df →
  cell df "close" i = Some close →
  cell df (ema_column ema_slow) i = Some slow →
  cell df "rsi" i = Some rsi →
  close ≠ F64.nan → slow ≠ F64.nan → SFeqb close slow = false →
  ∃ df' v,
    populate_exit_trend df = Ok df' ∧
    signal_at df' "exit" i = Some v ∧
    (v = 1%Z ∨ v = (-1)%Z).
Proof.
  intros Hal Hclose Hslow Hrsi Hc Hs Hne.
  destruct (populate_exit_trend_closed df Hal) as (c & Hrun & _ & _ & Hsig).
  { unfold has_columns, exit_inputs.
    repeat constructor; eapply cell_is_Some; eassumption. }
  { left. pose proof (cell_lt _ _ _ _ Hal Hclose). lia. }
  eexists _, _. split; [exact Hrun|].
  split; [rewrite signal_at_setitem; by apply Hsig|].
  pose proof (ltb_total close slow Hc Hs Hne) as Hside.
  unfold exit_long, exit_short, F64.gtb. unfold F64.ltb in Hside.
  apply orb_true_iff in Hside as [Hlt|Hgt].
  - unfold F64.ltb. rewrite Hlt. cbn [orb].
    destruct (SFltb slow close || F64.leb rsi (F64.of_Z rsi_oversold)); auto.
  - rewrite Hgt. cbn [orb]. auto.
Qed.

Lemma exit_nonzero_off_the_ema_witness :
  ∃ df' v,
    populate_exit_trend (Fixtures.uptrend 1) = Ok df' ∧
    signal_at df' "exit" 49 = Some v ∧
    (v = 1%Z ∨ v = (-1)%Z).
Proof.
  apply (exit_nonzero_off_the_ema (Fixtures.uptrend 1) 49
           (F64.of_Z 102) (F64.of_Z 90) (F64.of_Z 55)).
  - apply uptrend_50_aligned.
  - vm_compute. reflexivity.
  - vm_compute. reflexivity.
  - vm_compute. reflexivity.
  - discriminate.
  - discriminate.
  - reflexivity.
Defined.

(** ** The sign of a binary64 difference

    [_market_mode] tests [price_above_ema_slow > 0] where the entry rules
    test [close > ema_50]; on binary64 numbers the two agree, because a
    difference of two distinct numbers never rounds to zero. *)

Section Binary64Sub.
Local Open Scope Z_scope.

Lemma digits2_pos_lower m : 2 ^ (Zpos (digits2_pos m) - 1) ≤ Zpos m.
Proof.
  induction m as [m IH|m IH|]; cbn [digits2_pos]; [| |reflexivity];
    rewrite Pos2Z.inj_succ;
    replace (Z.succ (Z.pos (digits2_pos m)) - 1)
      with (Z.succ (Z.pos (digits2_pos m) - 1)) by lia;
    rewrite Z.pow_succ_r by lia; lia.
Qed.

Lemma shr_1_keeps r k : 0 ≤ k → 2 ^ (k + 1) ≤ shr_m r → 2 ^ k ≤ shr_m (shr_1 r).
Proof.
  intros Hk. destruct r as [m r s]. cbn [shr_m].
  rewrite Z.pow_add_r, Z.pow_1_r by lia.
  pose proof (Z.pow_pos_nonneg 2 k ltac:(lia) Hk) as Hpos.
  destruct m as [|[p|p|]|[p|p|]]; cbn [shr_1 shr_m]; lia.
Qed.

Lemma iter_pos_Pos_iter {A} (f : A → A) p x : SpecFloat.iter_pos f p x = Pos.iter f x p.
Proof.
  revert x. induction p as [p IH|p IH|]; intros x; cbn [SpecFloat.iter_pos Pos.iter].
  - by rewrite !IH, !Pos.iter_swap.
  - by rewrite !IH.
  - done.
Qed.

Lemma iter_shr_1_keeps p r k :
  0 ≤ k → 2 ^ (k + Zpos p) ≤ shr_m r → 2 ^ k ≤ shr_m (Pos.iter shr_1 r p).
Proof.
  revert k. induction p as [|p IH] using Pos.peano_ind; intros k Hk Hm.
  - by apply shr_1_keeps.
  - rewrite Pos.iter_succ. apply shr_1_keeps; [done|].
    apply IH; [lia|]. by replace (k + 1 + Z.pos p) with (k + Z.pos (Pos.succ p)) by lia.
Qed.

Lemma shr_record_of_loc_m m l : shr_m (shr_record_of_loc m l) = m.
Proof. by destruct l as [|[| |]]. Qed.

(** Rounding a positive mantissa at an exponent not below the smallest one
    leaves a positive mantissa. *)
Lemma shr_fexp_positive m e l :
  -1074 ≤ e →
  0 < shr_m (shr_fexp F64.prec F64.emax (Zpos m) e l).1 ∧
  -1074 ≤ (shr_fexp F64.prec F64.emax (Zpos m) e l).2.
Proof.
  intros He. unfold shr_fexp, shr. cbn [Zdigits2].
  pose proof (digits2_pos_lower m) as Hm.
  set (d := Zpos (digits2_pos m)) in *.
  assert (fexp F64.prec F64.emax (d + e) = Z.max (d + e - 53) (-1074)) as -> by reflexivity.
  destruct (Z.max (d + e - 53) (-1074) - e) as [|n|n] eqn:Hn; cbn [fst snd];
    rewrite ?shr_record_of_loc_m; try lia.
  rewrite iter_pos_Pos_iter. split; [|lia].
  pose proof (iter_shr_1_keeps n (shr_record_of_loc (Zpos m) l) 0 ltac:(lia)) as Hk.
  simpl (2 ^ 0) in Hk. rewrite shr_record_of_loc_m in Hk.
  assert (2 ^ (0 + Z.pos n) ≤ Z.pos m); [|lia].
  etrans; [|exact Hm]. apply Z.pow_le_mono_r; lia.
Qed.

Lemma round_nearest_even_positive m l : 0 < m → 0 < round_nearest_even m l.
Proof.
  intros Hm. destruct l as [|[| |]]; cbn [round_nearest_even]; try lia.
  destruct (Z.even m); lia.
Qed.

(** The sign of a rounded number is the sign that was asked for; a positive
    mantissa at an exponent of binary64 never rounds to zero. *)
Lemma binary_round_aux_positive m e l :
  -1074 ≤ e →
  SFltb (S754_zero false) (binary_round_aux F64.prec F64.emax false (Zpos m) e l)
  = true.
Proof.
  intros He. unfold binary_round_aux.
  destruct (shr_fexp_positive m e l He) as [Hm1 He1].
  destruct (shr_fexp F64.prec F64.emax (Z.pos m) e l) as [r1 e1].
  cbn [fst snd] in Hm1, He1.
  pose proof (round_nearest_even_positive (shr_m r1) (loc_of_shr_record r1) Hm1)
    as Hm2.
  destruct (round_nearest_even (shr_m r1) (loc_of_shr_record r1)) as [|m2|m2];
    try lia.
  destruct (shr_fexp_positive m2 e1 loc_Exact He1) as [Hm3 _].
  destruct (shr_fexp F64.prec F64.emax (Z.pos m2) e1 loc_Exact) as [r3 e3].
  cbn [fst snd] in Hm3.
  destruct (shr_m r3) as [|m3|m3]; try lia.
  by destruct (e3 <=? F64.emax - F64.prec).
Qed.

Lemma binary_round_aux_negative m e l :
  SFltb (S754_zero false) (binary_round_aux F64.prec F64.emax true m e l) = false.
Proof.
  unfold binary_round_aux.
  destruct (shr_fexp F64.prec F64.emax m e l) as [r1 e1].
  destruct (shr_fexp F64.prec F64.emax _ e1 loc_Exact) as [r3 e3].
  destruct (shr_m r3); [done| |done].
  by destruct (e3 <=? F64.emax - F64.prec).
Qed.

Lemma shl_align_exponent m e e' : e' ≤ (shl_align m e e').2 ∨ (shl_align m e e').2 = e.
Proof. unfold shl_align. destruct (e' - e); cbn [snd]; lia. Qed.

(** Normalising an integer multiple of a power of two not below the smallest
    one: positive when the integer is, never positive otherwise. *)
Lemma binary_normalize_gt_zero z e :
  -1074 ≤ e →
  SFltb (S754_zero false) (binary_normalize F64.prec F64.emax z e false)
  = bool_decide (0 < z).
Proof.
  intros He. unfold binary_normalize, binary_round.
  destruct z as [|m|m].
  - done.
  - rewrite bool_decide_eq_true_2 by lia.
    destruct (shl_align m e _) as [mz ez] eqn:Hal.
    apply binary_round_aux_positive.
    pose proof (shl_align_exponent m e
                  (fexp F64.prec F64.emax (Z.pos (digits2_pos m) + e))) as Hez.
    rewrite Hal in Hez. cbn [snd] in Hez.
    assert (-1074 ≤ fexp F64.prec F64.emax (Z.pos (digits2_pos m) + e)).
    { unfold fexp, emin, F64.prec, F64.emax. lia. }
    lia.
  - rewrite bool_decide_eq_false_2 by lia.
    destruct (shl_align m e _) as [mz ez].
    apply binary_round_aux_negative.
Qed.

Lemma digits2_pos_upper m : Zpos m < 2 ^ Zpos (digits2_pos m).
Proof.
  induction m as [m IH|m IH|]; cbn [digits2_pos]; [| |reflexivity];
    rewrite Pos2Z.inj_succ, Z.pow_succ_r by lia; lia.
Qed.

Lemma iter_xO_value m d : Zpos (Pos.iter xO m d) = Zpos m * 2 ^ Zpos d.
Proof.
  induction d as [|d IH] using Pos.peano_ind.
  - cbn [Pos.iter]. lia.
  - rewrite Pos.iter_succ, Pos2Z.inj_succ, Z.pow_succ_r by lia.
    rewrite Pos2Z.inj_xO, IH. lia.
Qed.

Lemma shl_align_value m e e' :
  e' ≤ e → Zpos (shl_align m e e').1 = Zpos m * 2 ^ (e - e').
Proof.
  intros He. unfold shl_align.
  destruct (e' - e) as [|d|d] eqn:Hd; cbn [fst]; try lia.
  - replace (e - e') with 0 by lia. lia.
  - rewrite iter_xO_value. f_equal. f_equal. lia.
Qed.

(** What it means for a mantissa and exponent to be in canonical form. *)
Lemma bounded_inv m e :
  bounded F64.prec F64.emax m e = true →
  -1074 ≤ e ∧ Zpos m < 2 ^ 53 ∧ (-1074 < e → 2 ^ 52 ≤ Zpos m).
Proof.
  unfold bounded, canonical_mantissa, fexp, emin, F64.prec, F64.emax.
  rewrite andb_true_iff, Z.eqb_eq. intros [Hcan _].
  pose proof (digits2_pos_lower m) as Hlo.
  pose proof (digits2_pos_upper m) as Hup.
  set (d := Zpos (digits2_pos m)) in *.
  split; [lia|]. split.
  - eapply Z.lt_le_trans; [exact Hup|]. apply Z.pow_le_mono_r; lia.
  - intros He. replace d with 53 in Hlo by lia. exact Hlo.
Qed.

(** For two finite binary64 numbers, the integer that [SFsub] normalises is
    positive exactly when the first is the greater. *)
Lemma sub_mantissa_sign sx mx ex sy my ey :
  bounded F64.prec F64.emax mx ex = true →
  bounded F64.prec F64.emax my ey = true →
  SFltb (S754_finite sy my ey) (S754_finite sx mx ex)
  = bool_decide
      (0 < cond_Zopp sx (Zpos (shl_align mx ex (Z.min ex ey)).1)
           - cond_Zopp sy (Zpos (shl_align my ey (Z.min ex ey)).1)).
Proof.
  intros Hx Hy.
  destruct (bounded_inv mx ex Hx) as (Hex & Hmx & Hnx).
  destruct (bounded_inv my ey Hy) as (Hey & Hmy & Hny).
  rewrite !shl_align_value by lia.
  unfold SFltb, SFcompare.
  change (Pos.compare_cont Eq my mx) with (Pos.compare my mx).
  destruct (Z.compare_spec ey ex) as [Heq|Hlt|Hgt].
  - subst ey. rewrite Z.min_id, Z.sub_diag. cbn [Z.pow]. rewrite !Z.mul_1_r.
    destruct (Pos.compare_spec my mx); destruct sx, sy; cbn [cond_Zopp CompOpp];
      symmetry; first [apply bool_decide_eq_true_2 | apply bool_decide_eq_false_2];
      lia.
  - rewrite Z.min_r by lia. rewrite Z.sub_diag. cbn [Z.pow]. rewrite Z.mul_1_r.
    assert (2 ≤ 2 ^ (ex - ey)) as Hpow.
    { change 2 with (2 ^ 1) at 1. apply Z.pow_le_mono_r; lia. }
    specialize (Hnx ltac:(lia)).
    assert (Zpos my < Zpos mx * 2 ^ (ex - ey)) as Hval by nia.
    destruct sx, sy; cbn [cond_Zopp];
      symmetry; first [apply bool_decide_eq_true_2 | apply bool_decide_eq_false_2];
      lia.
  - rewrite Z.min_l by lia. rewrite Z.sub_diag. cbn [Z.pow]. rewrite Z.mul_1_r.
    assert (2 ≤ 2 ^ (ey - ex)) as Hpow.
    { change 2 with (2 ^ 1) at 1. apply Z.pow_le_mono_r; lia. }
    specialize (Hny ltac:(lia)).
    assert (Zpos mx < Zpos my * 2 ^ (ey - ex)) as Hval by nia.
    destruct sx, sy; cbn [cond_Zopp];
      symmetry; first [apply bool_decide_eq_true_2 | apply bool_decide_eq_false_2];
      lia.
Qed.

(** [x - y > 0] and [x > y] are the same test on binary64 numbers. *)
Lemma sub_gt_zero x y :
  valid_binary F64.prec F64.emax x = true →
  valid_binary F64.prec F64.emax y = true →
  F64.gtb (F64.sub x y) (F64.of_Z 0) = F64.gtb x y.
Proof.
  intros Hx Hy. unfold F64.gtb, F64.sub, F64.of_Z.
  change (binary_normalize F64.prec F64.emax 0 0 false) with (S754_zero false).
  destruct x as [sx|sx| |sx mx ex], y as [sy|sy| |sy my ey];
    try reflexivity;
    try (by destruct sx, sy); try (by destruct sx); try (by destruct sy).
  cbn [valid_binary] in Hx, Hy. unfold SFsub.
  rewrite sub_mantissa_sign by done.
  apply binary_normalize_gt_zero.
  destruct (bounded_inv mx ex Hx) as (? & _). destruct (bounded_inv my ey Hy) as (? & _).
  lia.
Qed.
End Binary64Sub.


Lemma market_mode_of_bar df i r offset :
  iloc df i = Some r → cell df "price_above_ema_slow" i = Some offset →
  _market_mode (row_at df i)
  = Ok (if trending r
        then if F64.gtb offset (F64.of_Z 0) then "strong_up" else "strong_down"
        else if F64.ltb (row_rsi r) (F64.of_Z 60)
                && F64.gtb (row_rsi r) (F64.of_Z 40)
             then "range" else "consolidation").
Proof.
  intros Hrow Hoffset.
  assert (cell df "adx" i = Some (row_adx r) ∧ cell df "rsi" i = Some (row_rsi r))
    as [Hadx Hrsi].
  { unfold iloc in Hrow.
    repeat match type of Hrow with
      | (?o ≫= _) = Some _ =>
          let E := fresh "E" in destruct o eqn:E; [simpl in Hrow | discriminate]
      end.
    by injection Hrow as <-. }
  unfold _market_mode.
  rewrite (row_getitem_Some _ "adx" (row_adx r)) by by rewrite row_at_lookup.
  rewrite bind_Ok.
  rewrite (row_getitem_Some _ "price_above_ema_slow" offset)
    by by rewrite row_at_lookup.
  rewrite bind_Ok.
  rewrite (row_getitem_Some _ "rsi" (row_rsi r)) by by rewrite row_at_lookup.
  rewrite bind_Ok. unfold mret, result_ret. fold (trending r).
  by destruct (trending r).
Qed.

(** X13.  After [populate_indicators], at every bar whose close and slow EMA are
    binary64 numbers, [price_above_ema_slow > 0] holds exactly when
    [close > ema_50] does. *)
Theorem offset_positive_iff_close_above_ema `{Indicators} df df' i close slow :
  populate_indicators df = Ok df' →
  cell df' "close" i = Some close →
  cell df' (ema_column ema_slow) i = Some slow →
  is_binary64 close → is_binary64 slow →
  ∃ offset,
    cell df' "price_above_ema_slow" i = Some offset ∧
    F64.gtb offset (F64.of_Z 0) = F64.gtb close slow.
Proof.
  intros Hrun Hclose Hslow Hc Hs.
  destruct (populate_indicators_Ok df df' Hrun)
    as (closes & high & low & volume & Hget & _ & _ & _ & ->).
  revert Hclose Hslow.
  unfold cell, getitem, write_columns, indicator_columns.
  rewrite ema_slow_name, ema_fast_name. cbn [foldl setitem columns fst snd].
  rewrite lookup_insert_eq.
  rewrite !(lookup_insert_ne _ _ "close") by discriminate.
  rewrite !(lookup_insert_ne _ _ "ema_50") by discriminate.
  rewrite lookup_insert_eq.
  fold (getitem df "close"). rewrite Hget. intros Hclose Hslow.
  exists (F64.sub close slow). split; [|by apply sub_gt_zero].
  unfold Series.sub. by rewrite lookup_zip_with, Hclose, Hslow.
Qed.

Lemma populate_indicators_ramp :
  ∃ df',
    populate_indicators (H := Doubles.quiet_market) (Fixtures.ramp 3) = Ok df'.
Proof. eexists. vm_compute. reflexivity. Defined.

Lemma offset_positive_iff_close_above_ema_witness :
  ∃ df' slow offset,
    populate_indicators (H := Doubles.quiet_market) (Fixtures.ramp 3) = Ok df' ∧
    cell df' "ema_50" 2 = Some slow ∧
    F64.ltb (F64.of_Z 100) slow = true ∧ F64.ltb slow (F64.of_Z 101) = true ∧
    cell df' "price_above_ema_slow" 2 = Some offset ∧
    F64.gtb offset (F64.of_Z 0) = F64.gtb (F64.of_Z 102) slow.
Proof.
  destruct populate_indicators_ramp as [df' Hrun].
  destruct (populate_indicators_Ok _ _ Hrun)
    as (closes & high & low & volume & Hget & _ & _ & _ & Hdf').
  vm_compute in Hget. injection Hget as <-.
  assert (∃ slow, cell df' "ema_50" 2 = Some slow ∧ is_binary64 slow ∧
                  F64.ltb (F64.of_Z 100) slow = true ∧
                  F64.ltb slow (F64.of_Z 101) = true)
    as (slow & Hslow & Hvalid & Hlow & Hhigh).
  { rewrite Hdf'. eexists. split; [vm_compute; reflexivity|].
    split; [reflexivity|]. split; vm_compute; reflexivity. }
  exists df', slow.
  destruct (offset_positive_iff_close_above_ema (H := Doubles.quiet_market)
              (Fixtures.ramp 3) df' 2 (F64.of_Z 102) slow Hrun)
    as (offset & Hoffset & Hsign).
  - rewrite Hdf'. vm_compute. reflexivity.
  - exact Hslow.
  - reflexivity.
  - exact Hvalid.
  - exists offset. split; [exact Hrun|]. split; [exact Hslow|].
    split; [exact Hlow|]. split; [exact Hhigh|].
    split; [exact Hoffset|exact Hsign].
Defined.

(** X14.  The class docstring: "Strong Uptrend: only long on confirmed breakouts
    above EMA; Strong Downtrend: only short on confirmed breakdowns below
    EMA".  On a table of at least 200 bars whose [price_above_ema_slow] cell
    holds close - ema_50 as [populate_indicators] leaves it, with binary64
    cells: a long breakout bar is classified 'strong_up' and gets +1, a short
    breakout bar is classified 'strong_down' and gets -1, a 'strong_up' bar
    never gets -1 and a 'strong_down' bar never gets +1. *)
Theorem trend_mode_matches_breakouts df i r :
  aligned df → startup_candle_count ≤ shape0 df → iloc df i = Some r →
  cell df "price_above_ema_slow" i
  = Some (F64.sub (row_close r) (row_ema_slow r)) →
  is_binary64 (row_close r) → is_binary64 (row_ema_slow r) →
  ∃ mode df' v,
    _market_mode (row_at df i) = Ok mode ∧
    populate_entry_trend df = Ok df' ∧
    signal_at df' "enter" i = Some v ∧
    (long_breakout r = true → mode = "strong_up" ∧ v = 1%Z) ∧
    (short_breakout r = true → mode = "strong_down" ∧ v = (-1)%Z) ∧
    (mode = "strong_up" → v = 0%Z ∨ v = 1%Z) ∧
    (mode = "strong_down" → v = 0%Z ∨ v = (-1)%Z).
Proof.
  intros Hal Hwarm Hrow Hoffset Hc Hs.
  destruct (populate_entry_trend_warm df Hal Hwarm (iloc_has_columns _ _ _ Hrow))
    as (c & Hrun & _ & _ & Hsig).
  eexists _, _, _. split; [by apply (market_mode_of_bar df i r)|].
  split; [exact Hrun|].
  split; [rewrite signal_at_setitem; by apply Hsig|].
  rewrite (sub_gt_zero _ _ Hc Hs).
  unfold long_entry, short_entry.
  destruct (trending r) eqn:Htrend.
  - pose proof (trending_not_not_trending r Htrend) as Hflat.
    assert (range_long r = false ∧ range_short r = false ∧
            consolidation_long r = false ∧ consolidation_short r = false)
      as (-> & -> & -> & ->).
    { unfold range_long, range_short, consolidation_long, consolidation_short.
      by rewrite Hflat. }
    rewrite !orb_false_r.
    assert (F64.gtb (row_close r) (row_ema_slow r) = true →
            short_breakout r = false) as Hup.
    { unfold F64.gtb. intros Hgt. apply ltb_asym in Hgt.
      unfold short_breakout. unfold F64.ltb in *. by rewrite Hgt, !andb_false_r. }
    assert (F64.gtb (row_close r) (row_ema_slow r) = false →
            long_breakout r = false) as Hdown.
    { intros Hgt. unfold long_breakout. by rewrite Hgt, !andb_false_r. }
    destruct (F64.gtb (row_close r) (row_ema_slow r)) eqn:Hgt.
    + rewrite (Hup eq_refl).
      split; [by intros ->|]. split; [discriminate|].
      split; [|discriminate]. intros _. destruct (long_breakout r); auto.
    + rewrite (Hdown eq_refl).
      split; [discriminate|]. split; [by intros ->|].
      split; [discriminate|]. intros _. destruct (short_breakout r); auto.
  - assert (long_breakout r = false ∧ short_breakout r = false) as [Hlb Hsb].
    { unfold long_breakout, short_breakout. by rewrite Htrend, !andb_false_r. }
    rewrite Hlb, Hsb.
    destruct (F64.ltb (row_rsi r) (F64.of_Z 60)
              && F64.gtb (row_rsi r) (F64.of_Z 40));
      (split; [discriminate|]); (split; [discriminate|]); split; discriminate.
Qed.

Lemma trend_mode_matches_breakouts_witness :
  ∃ mode df' v,
    _market_mode (row_at uptrend_with_offset 100) = Ok mode ∧
    populate_entry_trend uptrend_with_offset = Ok df' ∧
    signal_at df' "enter" 100 = Some v ∧
    (long_breakout Fixtures.uptrend_bar = true → mode = "strong_up" ∧ v = 1%Z) ∧
    (short_breakout Fixtures.uptrend_bar = true →
     mode = "strong_down" ∧ v = (-1)%Z) ∧
    (mode = "strong_up" → v = 0%Z ∨ v = 1%Z) ∧
    (mode = "strong_down" → v = 0%Z ∨ v = (-1)%Z).
Proof.
  apply (trend_mode_matches_breakouts uptrend_with_offset 100).
  - apply uptrend_with_offset_aligned.
  - unfold startup_candle_count. simpl. lia.
  - apply uptrend_with_offset_bar_100.
  - vm_compute. reflexivity.
  - reflexivity.
  - reflexivity.
Defined.

(** ** The order of the two signal hooks *)

(** X15.  The two signal functions can be called in either order: when entry
    followed by exit succeeds, exit followed by entry succeeds with the same
    table. *)
Theorem entry_exit_commute df df' :
  populate_entry_trend df ≫= populate_exit_trend = Ok df' →
  populate_exit_trend df ≫= populate_entry_trend = Ok df'.
Proof.
  destruct (populate_entry_trend df) as [df1|] eqn:Hentry; [|discriminate].
  rewrite bind_Ok. intros Hexit.
  destruct (populate_entry_trend_shape _ _ Hentry) as [c1 ->].
  rewrite populate_exit_trend_frame_any in Hexit.
  2:{ unfold exit_inputs. rewrite ema_slow_name.
      rewrite !not_elem_of_cons. repeat split; try discriminate.
      apply not_elem_of_nil. }
  destruct (populate_exit_trend df) as [df2|] eqn:Hexit2; [|discriminate].
  rewrite bind_Ok in Hexit. injection Hexit as <-.
  destruct (populate_exit_trend_shape _ _ Hexit2) as [c2 ->].
  rewrite bind_Ok, populate_entry_trend_frame, Hentry, bind_Ok.
  f_equal. by apply setitem_commute.
Qed.

Lemma entry_exit_commute_witness :
  ∃ df',
    populate_entry_trend (Fixtures.uptrend 151) ≫= populate_exit_trend = Ok df' ∧
    populate_exit_trend (Fixtures.uptrend 151) ≫= populate_entry_trend = Ok df'.
Proof.
  assert (∃ df', populate_entry_trend (Fixtures.uptrend 151)
                 ≫= populate_exit_trend = Ok df') as [df' Hrun].
  { eexists. vm_compute. reflexivity. }
  exists df'. split; [exact Hrun|].
  apply (entry_exit_commute (Fixtures.uptrend 151) df' Hrun).
Defined.
